(** * snakemake/remote/FTP.py: the FTP remote-file adapter

    A shallow embedding of [RemoteObject] of [snakemake/remote/FTP.py]:
    the address pattern of [_matched_address], the properties derived from
    it, the context manager [ftpc] and the operations built on it
    ([exists], [mtime], [size], [download], [upload], [list]).

    The FTP client library ([ftputil]), the local file system ([os]) and
    the engine's file object ([_iofile]) are not part of the module: they
    are an interface ([Env]) whose operations act on a world and may raise.
    Every call through the interface is recorded in a log, so that a
    connection being attempted, a connection being closed and the clocks
    being synchronised before a read are statements about the log.

    Strings have 8-bit characters, paths are POSIX paths ([os.path] is
    [posixpath]), and [int] is the one of CPython 3.11, which converts at
    most 4300 digits. *)

From Stdlib Require Import String Ascii NArith ZArith List Lia DecimalString.
From Stdlib Require DecimalN.
From stdpp Require Import base option gmap strings list fin_maps.

Local Open Scope string_scope.

(* ===================================================================== *)
(** ** Python values, exceptions, results                                 *)
(* ===================================================================== *)

(** The values that travel through keyword arguments. *)
Inductive pyval : Type :=
| VNone
| VBool (b : bool)
| VInt (z : Z)
| VStr (s : string).

(** Truth value testing, as in [x if v else y]. *)
Definition truthy (v : pyval) : bool :=
  match v with
  | VNone => false
  | VBool b => b
  | VInt z => negb (Z.eqb z 0)
  | VStr s => negb (String.eqb s "")
  end.

(** A value that is a [str] or [None]. *)
Definition of_opt_str (o : option string) : pyval :=
  match o with
  | Some s => VStr s
  | None => VNone
  end.

(** Exceptions.  [Exc cls] is an instance of the exception class bound to
    the global name [cls]; [LibError e] is whatever the FTP library, [os]
    or the engine's file object raised. *)
Inductive exn : Type :=
| NameError (name : string)
| AttributeError (msg : string)
| TypeError
| ValueError
| KeyError (key : string)
| IndexError
| Exc (cls : string)
| LibError (e : string).

Inductive res (A : Type) : Type :=
| Ok (a : A)
| Raise (e : exn).
Arguments Ok {A} a.
Arguments Raise {A} e.

Definition is_raise {A} (r : res A) : bool :=
  match r with
  | Ok _ => false
  | Raise _ => true
  end.

(* ===================================================================== *)
(** ** Regular expressions: the two patterns of the module                *)
(* ===================================================================== *)

Module Re.

Definition in_range (lo hi c : ascii) : bool :=
  (N_of_ascii lo <=? N_of_ascii c)%N && (N_of_ascii c <=? N_of_ascii hi)%N.

(** [[A-Za-z0-9\-\.]] *)
Definition host_class (c : ascii) : bool :=
  in_range "A" "Z" c || in_range "a" "z" c || in_range "0" "9" c
  || Ascii.eqb c "-" || Ascii.eqb c ".".

(** [[0-9]] *)
Definition digit_class (c : ascii) : bool := in_range "0" "9" c.

(** [.] without DOTALL: any character but a newline. *)
Definition dot_class (c : ascii) : bool := negb (Ascii.eqb c "010").

(** [$] without MULTILINE: the end of the string, or just before a
    newline that ends the string. *)
Definition eol (s : string) : bool :=
  match s with
  | EmptyString => true
  | String c EmptyString => Ascii.eqb c "010"
  | _ => false
  end.

(** A backtracking matcher, in continuation-passing style: the
    continuation receives the text matched and the rest of the input,
    and answers [None] to ask for the next alternative. *)
Section Backtracking.
Context {R : Type}.

(** [cls*], greedy: the longest run first, then one character less at
    a time. *)
Fixpoint star (cls : ascii -> bool) (s : string)
         (k : string -> string -> option R) : option R :=
  match s with
  | String c s' =>
      if cls c then
        match star cls s' (fun m rest => k (String c m) rest) with
        | Some r => Some r
        | None => k "" s
        end
      else k "" s
  | EmptyString => k "" s
  end.

(** [cls+], greedy. *)
Definition plus (cls : ascii -> bool) (s : string)
           (k : string -> string -> option R) : option R :=
  match s with
  | String c s' =>
      if cls c then star cls s' (fun m rest => k (String c m) rest)
      else None
  | EmptyString => None
  end.

(** A literal character. *)
Definition lit (c : ascii) (s : string) (k : string -> option R) : option R :=
  match s with
  | String c' s' => if Ascii.eqb c' c then k s' else None
  | EmptyString => None
  end.

(** [(?:r)?], greedy: with [r] first, without it if that fails. *)
Definition opt {A} (r : string -> (A -> string -> option R) -> option R)
           (s : string) (k : option A -> string -> option R) : option R :=
  match r s (fun a rest => k (Some a) rest) with
  | Some x => Some x
  | None => k None s
  end.
End Backtracking.

(** The groups of a match of the address pattern. *)
Record address_match : Type := {
  group_host : string;
  group_port : option string;       (* [None]: the group took no part *)
  group_path_remainder : string
}.

(** [re.search] with the address pattern, piece by piece:
      - [^]                            the start of the string,
      - [(?P<host>[A-Za-z0-9\-\.]+)]   the group [host],
      - [(?:\:(?P<port>[0-9]+))?]      an optional colon and group [port],
      - [(?P<path_remainder>.* )]      the group [path_remainder],
      - [$]                            the end of the string.
    The pattern starts with [^] and is compiled without MULTILINE, so a
    search can only succeed at position 0. *)
Definition search_address (s : string) : option address_match :=
  plus host_class s (fun host s1 =>
    opt (fun s k => lit ":" s (fun s' => plus digit_class s' k)) s1 (fun port s2 =>
      star dot_class s2 (fun path_remainder s3 =>
        if eol s3
        then Some {| group_host := host; group_port := port;
                     group_path_remainder := path_remainder |}
        else None))).

(** [re.search] with the pattern [{[^{]]: the start of the leftmost
    match, a brace followed by a character that is not a brace. *)
Fixpoint search_wildcard (s : string) : option nat :=
  match s with
  | EmptyString => None
  | String c s' =>
      match s' with
      | String c' _ =>
          if Ascii.eqb c "{" && negb (Ascii.eqb c' "{") then Some 0
          else S <$> search_wildcard s'
      | EmptyString => None
      end
  end.

(** The pattern [{[^{]] matches at index [i]. *)
Definition wildcard_at (s : string) (i : nat) : Prop :=
  String.get i s = Some "{"%char /\
  exists c, String.get (S i) s = Some c /\ c <> "{"%char.

(** The longest prefix in a class and the rest: what a greedy loop takes
    when nothing makes it give characters back. *)
Fixpoint span (cls : ascii -> bool) (s : string) : string * string :=
  match s with
  | String c s' =>
      if cls c then (String c (span cls s').1, (span cls s').2) else ("", s)
  | EmptyString => ("", "")
  end.

Fixpoint all_in (cls : ascii -> bool) (s : string) : bool :=
  match s with
  | String c s' => cls c && all_in cls s'
  | EmptyString => true
  end.

(** What stops a greedy run: the end of the input, or a character
    outside the class. *)
Definition stops (cls : ascii -> bool) (s : string) : Prop :=
  match s with
  | EmptyString => True
  | String c _ => cls c = false
  end.

(** The end of the pattern, [$], as the last continuation. *)
Definition final (h : string) (p : option string) (r s3 : string)
  : option address_match :=
  if eol s3
  then Some {| group_host := h; group_port := p; group_path_remainder := r |}
  else None.

(** The pattern after the host group, as a function of the host and of
    the input left. *)
Definition after_host (h s1 : string) : option address_match :=
  opt (fun s k => lit ":" s (fun s' => plus digit_class s' k)) s1
      (fun port s2 => star dot_class s2 (final h port)).

(** Whether [.*$] matches: the rest of the line ends the string. *)
Definition tail_ok (s : string) : bool := eol (span dot_class s).2.

(** The optional port taken greedily: a colon and the longest run of
    digits after it, when there is at least one. *)
Definition port_span (s : string) : option string * string :=
  match s with
  | String c t =>
      if Ascii.eqb c ":" then
        match span digit_class t with
        | (EmptyString, _) => (None, s)
        | (d, t') => (Some d, t')
        end
      else (None, s)
  | EmptyString => (None, s)
  end.

(** The text a match covers: the three groups, with the colon of the
    port when the port took part. *)
Definition matched_text (m : address_match) : string :=
  group_host m
  +:+ match group_port m with
      | Some p => String ":" p
      | None => ""
      end
  +:+ group_path_remainder m.

(** The match without backtracking: every group takes all it can. *)
Definition greedy_address (s : string) : option address_match :=
  match span host_class s with
  | (EmptyString, _) => None
  | (h, s1) =>
      let '(p, s2) := port_span s1 in
      let '(r, s3) := span dot_class s2 in
      if eol s3
      then Some {| group_host := h; group_port := p;
                   group_path_remainder := r |}
      else None
  end.

(** [m.group(name)]: the text of a named group, [None] for a group that
    took no part, [IndexError] for a name the pattern does not have. *)
Definition group (m : address_match) (name : string) : res (option string) :=
  if String.eqb name "host" then Ok (Some (group_host m))
  else if String.eqb name "port" then Ok (group_port m)
  else if String.eqb name "path_remainder" then Ok (Some (group_path_remainder m))
  else Raise IndexError.

End Re.

(* ===================================================================== *)
(** ** Builtins and [posixpath]                                           *)
(* ===================================================================== *)

(** [sys.get_int_max_str_digits()]: the longest run of digits [int]
    converts, leading zeros counted. *)
Definition int_max_str_digits : nat := 4300.

(** [int(s)] on the text a [[0-9]+] group can capture: its decimal value;
    [ValueError] on more than [int_max_str_digits] digits, and on anything
    that is not a non-empty run of digits. *)
Definition py_int (s : string) : res Z :=
  if (int_max_str_digits <? String.length s)%nat then Raise ValueError
  else
    match NilZero.uint_of_string s with
    | Some d => Ok (Z.of_N (N.of_uint d))
    | None => Raise ValueError
    end.


(** A match whose port group, if it took part, is short enough for
    [int]. *)
Definition port_in_limit (m : Re.address_match) : bool :=
  match Re.group_port m with
  | Some d => (String.length d <=? int_max_str_digits)%nat
  | None => true
  end.

Module Posixpath.

Definition sep : ascii := "/".

(** [s.rfind(c)]: the highest index of [c], or [-1]. *)
Fixpoint rfind (c : ascii) (s : string) : Z :=
  match s with
  | EmptyString => (-1)%Z
  | String c' s' =>
      let r := rfind c s' in
      if (0 <=? r)%Z then (r + 1)%Z
      else if Ascii.eqb c' c then 0%Z else (-1)%Z
  end.

(** [s.rstrip(c)]. *)
Fixpoint rstrip (c : ascii) (s : string) : string :=
  match s with
  | EmptyString => ""
  | String c' s' =>
      let r := rstrip c s' in
      if String.eqb r "" && Ascii.eqb c' c then "" else String c' r
  end.

(** [c * n]. *)
Fixpoint str_mul (c : ascii) (n : nat) : string :=
  match n with
  | O => ""
  | S n' => String c (str_mul c n')
  end.

(** [s.split(c)]. *)
Fixpoint split (c : ascii) (s : string) : list string :=
  match s with
  | EmptyString => [""]
  | String c' s' =>
      if Ascii.eqb c' c then "" :: split c s'
      else match split c s' with
           | x :: xs => String c' x :: xs
           | [] => [String c' ""]
           end
  end.

(** [posixpath.dirname]. *)
Definition dirname (p : string) : string :=
  let i := (rfind sep p + 1)%Z in
  let head := substring 0 (Z.to_nat i) p in
  if negb (String.eqb head "")
     && negb (String.eqb head (str_mul sep (String.length head)))
  then rstrip sep head
  else head.

(** One round of the loop of [posixpath.normpath] over the components. *)
Definition normpath_step (initial_slashes : nat) (new_comps : list string)
           (comp : string) : list string :=
  if String.eqb comp "" || String.eqb comp "." then new_comps
  else if negb (String.eqb comp "..")
          || (Nat.eqb initial_slashes 0 && bool_decide (new_comps = []))
          || (negb (bool_decide (new_comps = []))
              && String.eqb (List.last new_comps "") "..")
  then new_comps ++ [comp]
  else if negb (bool_decide (new_comps = [])) then removelast new_comps
  else new_comps.

(** [posixpath.normpath]. *)
Definition normpath (path : string) : string :=
  if String.eqb path "" then "."
  else
    let initial_slashes :=
      if String.prefix "/" path then
        if String.prefix "//" path && negb (String.prefix "///" path)
        then 2 else 1
      else 0 in
    let comps := split sep path in
    let comps := fold_left (normpath_step initial_slashes) comps [] in
    let path := String.concat "/" comps in
    let path := str_mul sep initial_slashes +:+ path in
    if String.eqb path "" then "." else path.

(** [posixpath.join(a, b)]. *)
Definition join (a b : string) : string :=
  if String.prefix "/" b then b
  else if String.eqb a "" || Ascii.eqb (List.last (list_ascii_of_string a) "000"%char) sep
  then a +:+ b
  else a +:+ "/" +:+ b.

End Posixpath.

(* ===================================================================== *)
(** ** The environment: [ftputil], [os] and the engine's file object      *)
(* ===================================================================== *)

(** [ftplib.FTP] and [ftplib.FTP_TLS]. *)
Inductive ftp_class : Type := FTP | FTP_TLS.

(** What [ftputil.session.session_factory] is called with. *)
Record session_factory : Type := {
  base_class : ftp_class;
  sf_port : pyval;
  sf_encrypt_data_channel : pyval;
  debug_level : pyval
}.

(** One triple yielded by [FTPHost.walk]: [(dirpath, dirnames, filenames)]. *)
Record walk_entry : Type := {
  dirpath : string;
  dirnames : list string;
  filenames : list string
}.

(** The result of a call into the environment: a value, or the description
    of the exception it raised. *)
Definition outcome (A : Type) : Type := A + string.

Class Env : Type := {
  World : Type;
  Conn : Type;
  Time : Type;
  (* ftputil.FTPHost(host, username, password, session_factory=...) *)
  FTPHost : pyval -> pyval -> pyval -> session_factory -> World -> outcome Conn * World;
  (* conn.close() *)
  conn_close : Conn -> World -> outcome unit * World;
  (* conn.path.exists(path) *)
  path_exists : Conn -> option string -> World -> outcome bool * World;
  (* conn.synchronize_times() *)
  synchronize_times : Conn -> World -> outcome unit * World;
  (* conn.path.getmtime(path) *)
  path_getmtime : Conn -> option string -> World -> outcome Time * World;
  (* conn.path.getsize(path) *)
  path_getsize : Conn -> option string -> World -> outcome Z * World;
  (* conn.download(source=..., target=...) *)
  conn_download : Conn -> option string -> string -> World -> outcome unit * World;
  (* conn.upload(source=..., target=...) *)
  conn_upload : Conn -> string -> option string -> World -> outcome unit * World;
  (* the triples of conn.walk(top), consumed inside the [with] block *)
  conn_walk : Conn -> string -> World -> outcome (list walk_entry) * World;
  (* os.path.exists(path) *)
  os_path_exists : string -> World -> bool;
  (* os.makedirs(path) *)
  os_makedirs : string -> World -> outcome unit * World;
  (* self._iofile.size_local, of the file object named by its [_file] *)
  iofile_size_local : string -> World -> outcome Z * World
}.

Section Monad.
Context {E : Env}.

(** The calls into the environment, as the log records them. *)
Inductive event : Type :=
| EConnect (host username password : pyval) (sf : session_factory)
| EClose (c : Conn)
| EExists (c : Conn) (path : option string)
| ESync (c : Conn)
| EGetmtime (c : Conn) (path : option string)
| EGetsize (c : Conn) (path : option string)
| EDownload (c : Conn) (source : option string) (target : string)
| EUpload (c : Conn) (source : string) (target : option string)
| EWalk (c : Conn) (top : string)
| EMakedirs (path : string)
| ESizeLocal (file : string).

Record state : Type := { world : World; log : list event }.

(** Computations: they read and change the state, and return or raise. *)
Definition M (A : Type) : Type := state -> res A * state.

Definition ret {A} (a : A) : M A := fun st => (Ok a, st).

Definition raise {A} (e : exn) : M A := fun st => (Raise e, st).

Definition bind {A B} (m : M A) (f : A -> M B) : M B :=
  fun st =>
    match m st with
    | (Ok a, st') => f a st'
    | (Raise e, st') => (Raise e, st')
    end.

(** A pure computation that may raise. *)
Definition lift {A} (r : res A) : M A := fun st => (r, st).

(** A call into the environment: logged, then performed. *)
Definition call {A} (ev : event) (op : World -> outcome A * World) : M A :=
  fun st =>
    let '(r, w) := op (world st) in
    (match r with
     | inl a => Ok a
     | inr e => Raise (LibError e)
     end,
     {| world := w; log := log st ++ [ev] |}).

(** A read of the world. *)
Definition peek {A} (f : World -> A) : M A := fun st => (Ok (f (world st)), st).

End Monad.

Declare Scope py_scope.
Delimit Scope py_scope with py.
Notation "x <- m ;; k" := (bind m (fun x => k))
  (at level 100, m at next level, right associativity) : py_scope.
Notation "m ;;; k" := (bind m (fun _ => k))
  (at level 100, right associativity) : py_scope.

(* ===================================================================== *)
(** ** The module [snakemake.remote.FTP]                                  *)
(* ===================================================================== *)

Module FTP.

Local Open Scope py_scope.

(** The names bound at the top level of the module once it is loaded:
    its dunder assignments, its imports and its two classes. *)
Definition module_globals : list string :=
  [ "__author__"; "__copyright__"; "__email__"; "__license__";
    "os"; "re"; "ftplib"; "product"; "chain"; "contextmanager";
    "AbstractRemoteObject"; "AbstractRemoteProvider";
    "FTPFileException"; "snakemake"; "ftputil";
    "RemoteProvider"; "RemoteObject" ].

(** The builtin exception classes: the names a lookup falls back to. *)
Definition builtin_exceptions : list string :=
  [ "Exception"; "NameError"; "AttributeError"; "TypeError"; "ValueError";
    "KeyError"; "IndexError"; "OSError"; "IOError" ].

(** [RemoteProvider]: what [AbstractRemoteProvider.__init__] keeps. *)
Record RemoteProvider : Type := {
  provider_args : list pyval;
  provider_kwargs : gmap string pyval
}.

(** [RemoteObject].  [args], [kwargs] and [provider] are kept by
    [AbstractRemoteObject.__init__], [encrypt_data_channel] by
    [__init__] here (a keyword of its own, so never a key of [kwargs]);
    [_iofile_file] stands for [self._iofile._file]. *)
Record RemoteObject : Type := {
  args : list pyval;
  kwargs : gmap string pyval;
  provider : RemoteProvider;
  encrypt_data_channel : pyval;
  _iofile_file : string
}.

(** [d[k]]. *)
Definition getitem (d : gmap string pyval) (k : string) : res pyval :=
  match d !! k with
  | Some v => Ok v
  | None => Raise (KeyError k)
  end.

(** [for k, v in src.items(): dst[k] = v]. *)
Definition update_items (dst src : gmap string pyval) : gmap string pyval :=
  map_fold (fun k v acc => <[k := v]> acc) dst src.

(* === Related methods === *)

Definition _matched_address (self : RemoteObject) : option Re.address_match :=
  Re.search_address (_iofile_file self).

Definition host (self : RemoteObject) : option string :=
  match _matched_address self with
  | Some m => Some (Re.group_host m)
  | None => None
  end.

Definition port (self : RemoteObject) : res Z :=
  match _matched_address self with
  | None => Raise (AttributeError "'NoneType' object has no attribute 'group'")
  | Some m =>
      match Re.group_port m with
      | Some p => if negb (String.eqb p "") then py_int p else Ok 21%Z
      | None => Ok 21%Z
      end
  end.

Definition path_remainder (self : RemoteObject) : option string :=
  match _matched_address self with
  | Some m => Some (Re.group_path_remainder m)
  | None => None
  end.

Definition local_path (self : RemoteObject) : string := _iofile_file self.

Definition remote_path (self : RemoteObject) : option string := path_remainder self.



(** The dictionary [kwargs_to_use] of [ftpc] before its two loops: the
    five assignments, for a port [p]. *)
Definition defaults (self : RemoteObject) (p : Z) : gmap string pyval :=
  <["encrypt_data_channel" := encrypt_data_channel self]>
    (<["port" := VInt p]>
       (<["password" := VNone]>
          (<["username" := VNone]>
             (<["host" := of_opt_str (host self)]> ∅)))).

(** The dictionary [kwargs_to_use] of [ftpc], once both loops have run. *)
Definition kwargs_to_use (self : RemoteObject) : res (gmap string pyval) :=
  match port self with
  | Raise e => Raise e
  | Ok p =>
      let d : gmap string pyval := ∅ in
      let d := <["host" := of_opt_str (host self)]> d in
      let d := <["username" := VNone]> d in
      let d := <["password" := VNone]> d in
      let d := <["port" := VInt p]> d in
      let d := <["encrypt_data_channel" := encrypt_data_channel self]> d in
      let d := update_items d (provider_kwargs (provider self)) in
      let d := update_items d (kwargs self) in
      Ok d
  end.

(** [ftplib.FTP_TLS if kwargs_to_use["encrypt_data_channel"] else ftplib.FTP]. *)
Definition ftp_base_class (encrypt : pyval) : ftp_class :=
  if truthy encrypt then FTP_TLS else FTP.

Section Operations.
Context {E : Env}.

(** [raise name(...)]: the name is looked up before anything else of
    the statement is evaluated. *)
Definition raise_global {A} (name : string) : M A :=
  if bool_decide (name ∈ (module_globals ++ builtin_exceptions)%list)
  then raise (Exc name)
  else raise (NameError name).

(* === Implementations of abstract class members === *)

(** [with self.ftpc() as conn: body].  The generator runs up to its
    [yield]; the block runs; when the block is left without an
    exception the generator is resumed and runs [conn.close()]; when
    the block raises, the exception is thrown into the generator at the
    [yield], which is not inside a [try], and leaves it at once. *)
Definition ftpc {A} (self : RemoteObject) (body : Conn -> M A) : M A :=
  let args_to_use :=
    if (0 <? length (args self))%nat then args self
    else provider_args (provider self) in
  kw <- lift (kwargs_to_use self) ;;
  encrypt <- lift (getitem kw "encrypt_data_channel") ;;
  let base := ftp_base_class encrypt in
  p <- lift (getitem kw "port") ;;
  encrypt' <- lift (getitem kw "encrypt_data_channel") ;;
  let ftp_session_factory :=
    {| base_class := base; sf_port := p;
       sf_encrypt_data_channel := encrypt'; debug_level := VNone |} in
  h <- lift (getitem kw "host") ;;
  u <- lift (getitem kw "username") ;;
  pw <- lift (getitem kw "password") ;;
  conn <- call (EConnect h u pw ftp_session_factory)
               (FTPHost h u pw ftp_session_factory) ;;
  r <- body conn ;;
  call (EClose conn) (conn_close conn) ;;;
  ret r.

(** [exists].  The block of the [with] returns at its first statement:
    the second existence test, the [isfile] test and the
    [return False] after the block are never reached. *)
Definition exists_ (self : RemoteObject) : M bool :=
  match _matched_address self with
  | Some _ =>
      ftpc self (fun conn =>
        call (EExists conn (remote_path self))
             (path_exists conn (remote_path self)))
  | None => raise_global "SFTPFileException"
  end.

Definition mtime (self : RemoteObject) : M Time :=
  b <- exists_ self ;;
  if b : bool then
    ftpc self (fun conn =>
      call (ESync conn) (synchronize_times conn) ;;;
      call (EGetmtime conn (remote_path self))
           (path_getmtime conn (remote_path self)))
  else raise_global "SFTPFileException".

Definition size (self : RemoteObject) : M Z :=
  b <- exists_ self ;;
  if b : bool then
    ftpc self (fun conn =>
      call (EGetsize conn (remote_path self))
           (path_getsize conn (remote_path self)))
  else
    call (ESizeLocal (_iofile_file self)) (iofile_size_local (_iofile_file self)).

Definition download (self : RemoteObject) (make_dest_dirs : bool) : M unit :=
  ftpc self (fun conn =>
    b <- exists_ self ;;
    if b : bool then
      let dest := Posixpath.dirname (local_path self) in
      there <- peek (os_path_exists dest) ;;
      (if negb there && make_dest_dirs
       then call (EMakedirs dest) (os_makedirs dest)
       else ret tt) ;;;
      call (ESync conn) (synchronize_times conn) ;;;
      call (EDownload conn (remote_path self) (local_path self))
           (conn_download conn (remote_path self) (local_path self))
    else raise_global "SFTPFileException").

Definition upload (self : RemoteObject) : M unit :=
  ftpc self (fun conn =>
    call (ESync conn) (synchronize_times conn) ;;;
    call (EUpload conn (local_path self) (remote_path self))
         (conn_upload conn (local_path self) (remote_path self))).

(** The directory [list] walks: [dirname] of the pattern cut at its
    first wildcard, of the whole pattern when it has none, and ["."]
    when that is empty. *)
Definition list_dirname (pattern : string) : string :=
  let first_wildcard := Re.search_wildcard pattern in
  let dirname :=
    match first_wildcard with
    | Some start => Posixpath.dirname (substring 0 start pattern)
    | None => Posixpath.dirname pattern
    end in
  if String.eqb dirname "" then "." else dirname.

(** The first comprehension of [list]. *)
Definition walk_paths (entries : list walk_entry) : list string :=
  flat_map (fun e =>
    map (fun f => if negb (String.eqb (dirpath e) ".")
                  then Posixpath.join (dirpath e) f else f)
        (filenames e ++ dirnames e)) entries.

(** [file_path[1:] if file_path[0] == "/" else file_path]. *)
Definition strip_sep (file_path : string) : res string :=
  match file_path with
  | EmptyString => Raise IndexError
  | String c rest => if Ascii.eqb c "/" then Ok rest else Ok file_path
  end.

(** A path of the first comprehension, and the path the second one
    makes of it. *)
Definition stripped (raw file_path : string) : Prop :=
  match raw with
  | EmptyString => False
  | String c rest => if Ascii.eqb c "/" then file_path = rest else file_path = raw
  end.

(** A comprehension whose element expression may raise. *)
Fixpoint comprehension {A B} (f : A -> res B) (l : list A) : res (list B) :=
  match l with
  | [] => Ok []
  | x :: l' =>
      match f x with
      | Raise e => Raise e
      | Ok y =>
          match comprehension f l' with
          | Raise e => Raise e
          | Ok ys => Ok (y :: ys)
          end
      end
  end.

(** [list].  [normpath] of [None] raises [TypeError]. *)
Definition list_ (self : RemoteObject) : M (list string) :=
  match remote_path self with
  | None => raise TypeError
  | Some rp =>
      let pattern := Posixpath.normpath rp in
      let dirname := list_dirname pattern in
      ftpc self (fun conn =>
        entries <- call (EWalk conn dirname) (conn_walk conn dirname) ;;
        let file_list := walk_paths entries in
        lift (comprehension strip_sep file_list))
  end.

(** What [ftpc] connects with, read off the merged dictionary. *)
Definition kw_get (kw : gmap string pyval) (k : string) : pyval :=
  default VNone (kw !! k).

Definition session_of (kw : gmap string pyval) : session_factory :=
  {| base_class := ftp_base_class (kw_get kw "encrypt_data_channel");
     sf_port := kw_get kw "port";
     sf_encrypt_data_channel := kw_get kw "encrypt_data_channel";
     debug_level := VNone |}.

Definition connect_event (kw : gmap string pyval) : event :=
  EConnect (kw_get kw "host") (kw_get kw "username") (kw_get kw "password")
           (session_of kw).

Definition connect (kw : gmap string pyval) : World -> outcome Conn * World :=
  FTPHost (kw_get kw "host") (kw_get kw "username") (kw_get kw "password")
          (session_of kw).

(** [ftpc] from its call of [FTPHost] on. *)
Definition scoped {A} (kw : gmap string pyval) (body : Conn -> M A) : M A :=
  conn <- call (connect_event kw) (connect kw) ;;
  r <- body conn ;;
  call (EClose conn) (conn_close conn) ;;;
  ret r.

(** The state after one more logged call. *)
Definition logged (st : state) (ev : event) (w : World) : state :=
  {| world := w; log := log st ++ [ev] |}.

End Operations.

(** [protocol]: asks the match for a group named [protocol]; falls off
    the end, returning [None], when there is no match. *)
Definition protocol (self : RemoteObject) : res (option string) :=
  match _matched_address self with
  | Some m => Re.group m "protocol"
  | None => Ok None
  end.

Definition name (self : RemoteObject) : option string := path_remainder self.

(** The same handle with other positional arguments, its own and its
    provider's. *)
Definition with_args (self : RemoteObject) (a pa : list pyval) : RemoteObject :=
  {| args := a; kwargs := kwargs self;
     provider := {| provider_args := pa;
                    provider_kwargs := provider_kwargs (provider self) |};
     encrypt_data_channel := encrypt_data_channel self;
     _iofile_file := _iofile_file self |}.

End FTP.

(* ===================================================================== *)
(** ** Reading the log                                                    *)
(* ===================================================================== *)

(** The kind of a call, whatever its arguments. *)
Inductive kind : Type :=
| KConnect | KClose | KExists | KSync | KGetmtime | KGetsize
| KDownload | KUpload | KWalk | KMakedirs | KSizeLocal.

Section Log.
Context {E : Env}.

Definition kind_of (ev : event) : kind :=
  match ev with
  | EConnect _ _ _ _ => KConnect
  | EClose _ => KClose
  | EExists _ _ => KExists
  | ESync _ => KSync
  | EGetmtime _ _ => KGetmtime
  | EGetsize _ _ => KGetsize
  | EDownload _ _ _ => KDownload
  | EUpload _ _ _ => KUpload
  | EWalk _ _ => KWalk
  | EMakedirs _ => KMakedirs
  | ESizeLocal _ => KSizeLocal
  end.

(** However [m] ends, it only appends to the log, and only calls of the
    kinds [ks]. *)
Definition calls_only {A} (ks : list kind) (m : M A) : Prop :=
  forall st, exists evs,
    log (m st).2 = (log st ++ evs)%list /\ Forall (fun ev => kind_of ev ∈ ks) evs.

(** Connections attempted, and connections closed, in a run of events. *)
Fixpoint opened (evs : list event) : nat :=
  match evs with
  | [] => 0
  | EConnect _ _ _ _ :: evs' => S (opened evs')
  | _ :: evs' => opened evs'
  end.

Fixpoint closed (evs : list event) : nat :=
  match evs with
  | [] => 0
  | EClose _ :: evs' => S (closed evs')
  | _ :: evs' => closed evs'
  end.

(** When [m] returns, it has appended events with [d] more connections
    attempted than closed. *)
Definition nets {A} (m : M A) (d : Z) : Prop :=
  forall st r st',
    m st = (Ok r, st') ->
    exists evs,
      log st' = (log st ++ evs)%list /\
      (Z.of_nat (opened evs) - Z.of_nat (closed evs) = d)%Z.

End Log.

(* ===================================================================== *)
(** ** A small concrete environment                                       *)
(* ===================================================================== *)

(** One FTP server and one local file system, enough to run the adapter:
    files are kept with their content (one byte per character), the
    connections handed out are numbered, and the open ones are listed. *)
Module Toy.

Record remote_file : Type := { r_mtime : Z; r_content : string }.

Record toy_world : Type := {
  server_files : list (string * remote_file);
  server_walk : list (string * list walk_entry);
  local_dirs : list string;
  local_files : list (string * string);
  next_conn : nat;
  open_conns : list nat
}.

Fixpoint assoc {A} (k : string) (l : list (string * A)) : option A :=
  match l with
  | [] => None
  | (k', v) :: l' => if String.eqb k k' then Some v else assoc k l'
  end.

Definition mem (k : string) (l : list string) : bool :=
  existsb (String.eqb k) l.

Definition remote_lookup (path : option string) (w : toy_world) : option remote_file :=
  match path with
  | Some p => assoc p (server_files w)
  | None => None
  end.

Definition toy_FTPHost (h u pw : pyval) (sf : session_factory) (w : toy_world)
  : outcome nat * toy_world :=
  match h with
  | VStr _ =>
      (inl (next_conn w),
       {| server_files := server_files w; server_walk := server_walk w;
          local_dirs := local_dirs w; local_files := local_files w;
          next_conn := S (next_conn w);
          open_conns := next_conn w :: open_conns w |})
  | _ => (inr "FTPOSError", w)
  end.

Definition toy_close (c : nat) (w : toy_world) : outcome unit * toy_world :=
  (inl tt,
   {| server_files := server_files w; server_walk := server_walk w;
      local_dirs := local_dirs w; local_files := local_files w;
      next_conn := next_conn w;
      open_conns := filter (fun c' => negb (Nat.eqb c c')) (open_conns w) |}).

Definition toy_exists (c : nat) (path : option string) (w : toy_world)
  : outcome bool * toy_world :=
  (inl (bool_decide (is_Some (remote_lookup path w))), w).

Definition toy_sync (c : nat) (w : toy_world) : outcome unit * toy_world :=
  (inl tt, w).

Definition toy_getmtime (c : nat) (path : option string) (w : toy_world)
  : outcome Z * toy_world :=
  match remote_lookup path w with
  | Some f => (inl (r_mtime f), w)
  | None => (inr "PermanentError", w)
  end.

Definition toy_getsize (c : nat) (path : option string) (w : toy_world)
  : outcome Z * toy_world :=
  match remote_lookup path w with
  | Some f => (inl (Z.of_nat (String.length (r_content f))), w)
  | None => (inr "PermanentError", w)
  end.

Definition toy_download (c : nat) (source : option string) (target : string)
           (w : toy_world) : outcome unit * toy_world :=
  match remote_lookup source w with
  | Some f =>
      if mem (Posixpath.dirname target) (local_dirs w) then
        (inl tt,
         {| server_files := server_files w; server_walk := server_walk w;
            local_dirs := local_dirs w;
            local_files := (target, r_content f) :: local_files w;
            next_conn := next_conn w; open_conns := open_conns w |})
      else (inr "FileNotFoundError", w)
  | None => (inr "PermanentError", w)
  end.

Definition toy_upload (c : nat) (source : string) (target : option string)
           (w : toy_world) : outcome unit * toy_world :=
  match assoc source (local_files w), target with
  | Some content, Some t =>
      (inl tt,
       {| server_files := (t, {| r_mtime := 0; r_content := content |}) :: server_files w;
          server_walk := server_walk w;
          local_dirs := local_dirs w; local_files := local_files w;
          next_conn := next_conn w; open_conns := open_conns w |})
  | _, _ => (inr "FileNotFoundError", w)
  end.

Definition toy_walk (c : nat) (top : string) (w : toy_world)
  : outcome (list walk_entry) * toy_world :=
  match assoc top (server_walk w) with
  | Some entries => (inl entries, w)
  | None => (inl [], w)
  end.

Definition toy_os_path_exists (path : string) (w : toy_world) : bool :=
  mem path (local_dirs w) || bool_decide (is_Some (assoc path (local_files w))).

Definition toy_makedirs (path : string) (w : toy_world) : outcome unit * toy_world :=
  if toy_os_path_exists path w then (inr "FileExistsError", w)
  else if String.eqb path "" then (inr "FileNotFoundError", w)
  else
    (inl tt,
     {| server_files := server_files w; server_walk := server_walk w;
        local_dirs := path :: local_dirs w; local_files := local_files w;
        next_conn := next_conn w; open_conns := open_conns w |}).

Definition toy_size_local (file : string) (w : toy_world) : outcome Z * toy_world :=
  match assoc file (local_files w) with
  | Some content => (inl (Z.of_nat (String.length content)), w)
  | None => (inr "FileNotFoundError", w)
  end.

#[export] Instance toy_env : Env := {|
  World := toy_world;
  Conn := nat;
  Time := Z;
  FTPHost := toy_FTPHost;
  conn_close := toy_close;
  path_exists := toy_exists;
  synchronize_times := toy_sync;
  path_getmtime := toy_getmtime;
  path_getsize := toy_getsize;
  conn_download := toy_download;
  conn_upload := toy_upload;
  conn_walk := toy_walk;
  os_path_exists := toy_os_path_exists;
  os_makedirs := toy_makedirs;
  iofile_size_local := toy_size_local
|}.

(** The same machine when the server cannot be reached: [FTPHost] fails,
    and everything else is as in [toy_env]. *)
Definition unreachable_FTPHost (h u pw : pyval) (sf : session_factory) (w : toy_world)
  : outcome nat * toy_world :=
  (inr "FTPOSError", w).

Definition unreachable_env : Env := {|
  World := toy_world;
  Conn := nat;
  Time := Z;
  FTPHost := unreachable_FTPHost;
  conn_close := toy_close;
  path_exists := toy_exists;
  synchronize_times := toy_sync;
  path_getmtime := toy_getmtime;
  path_getsize := toy_getsize;
  conn_download := toy_download;
  conn_upload := toy_upload;
  conn_walk := toy_walk;
  os_path_exists := toy_os_path_exists;
  os_makedirs := toy_makedirs;
  iofile_size_local := toy_size_local
|}.

(** A server holding [/data/a.txt], [/data/b.txt] and [/data/sub/c.txt]. *)
Definition world0 : toy_world := {|
  server_files :=
    [ ("/data/a.txt", {| r_mtime := 1000; r_content := "alpha" |});
      ("/data/b.txt", {| r_mtime := 2000; r_content := "beta" |});
      ("/data/sub/c.txt", {| r_mtime := 3000; r_content := "gamma" |}) ];
  server_walk :=
    [ ("/data",
       [ {| dirpath := "/data"; dirnames := ["sub"];
            filenames := ["a.txt"; "b.txt"] |};
         {| dirpath := "/data/sub"; dirnames := []; filenames := ["c.txt"] |} ]) ];
  local_dirs := [];
  local_files := [];
  next_conn := 0;
  open_conns := []
|}.

(** [world0] as a walk that is started from [//data] sees it: the walk
    hands back the top directory as it was given. *)
Definition world_double_sep : toy_world := {|
  server_files := server_files world0;
  server_walk :=
    [ ("//data",
       [ {| dirpath := "//data"; dirnames := ["sub"];
            filenames := ["a.txt"; "b.txt"] |};
         {| dirpath := "//data/sub"; dirnames := []; filenames := ["c.txt"] |} ]) ];
  local_dirs := [];
  local_files := [];
  next_conn := 0;
  open_conns := []
|}.

(** [world0] with a local copy of [n] bytes under the name [file]. *)
Definition with_local_copy (file : string) (n : nat) : toy_world := {|
  server_files := server_files world0;
  server_walk := server_walk world0;
  local_dirs := [Posixpath.dirname file];
  local_files := [(file, Posixpath.str_mul "x" n)];
  next_conn := 0;
  open_conns := []
|}.

Definition start (w : toy_world) : state := {| world := w; log := [] |}.

Definition anonymous : FTP.RemoteProvider :=
  {| FTP.provider_args := []; FTP.provider_kwargs := ∅ |}.

(** The handle the engine makes for a file name, with no argument of
    its own. *)
Definition handle (file : string) : FTP.RemoteObject :=
  {| FTP.args := []; FTP.kwargs := ∅; FTP.provider := anonymous;
     FTP.encrypt_data_channel := VBool false; FTP._iofile_file := file |}.

End Toy.

(** Membership in a list of literals. *)
Ltac five_keys := repeat first [apply list_elem_of_here | apply list_elem_of_further].
Ltac in_kinds := simpl; repeat first [apply list_elem_of_here | apply list_elem_of_further].

(* ===================================================================== *)
(** ** The address pattern                                                *)
(* ===================================================================== *)

Section ReFacts.
Import Re.

Lemma host_class_dot c : host_class c = true -> dot_class c = true.
Proof. destruct c as [[] [] [] [] [] [] [] []]; vm_compute; congruence. Qed.

Lemma digit_class_dot c : digit_class c = true -> dot_class c = true.
Proof. destruct c as [[] [] [] [] [] [] [] []]; vm_compute; congruence. Qed.

Lemma digit_class_host c : digit_class c = true -> host_class c = true.
Proof. destruct c as [[] [] [] [] [] [] [] []]; vm_compute; congruence. Qed.

Lemma all_in_impl (p q : ascii -> bool) s :
  (forall c, p c = true -> q c = true) -> all_in p s = true -> all_in q s = true.
Proof.
  intros Hpq. induction s as [|c s IH]; simpl; [done|].
  intros [Hc Hs]%andb_prop. rewrite (Hpq _ Hc), (IH Hs). done.
Qed.

Lemma str_app_cons c a b : String c a +:+ b = String c (a +:+ b).
Proof. reflexivity. Qed.

Lemma str_app_nil b : "" +:+ b = b.
Proof. reflexivity. Qed.

Lemma str_app_nil_r a : a +:+ "" = a.
Proof. induction a as [|c a IH]; [done|]. by rewrite str_app_cons, IH. Qed.

Lemma str_app_assoc a b c : (a +:+ b) +:+ c = a +:+ b +:+ c.
Proof. induction a as [|x a IH]; [done|]. by rewrite !str_app_cons, IH. Qed.

Lemma span_app cls s : (span cls s).1 +:+ (span cls s).2 = s.
Proof.
  induction s as [|c s IH]; simpl; [done|].
  destruct (cls c); simpl; [by rewrite str_app_cons, IH | done].
Qed.

Lemma span_all_in cls s : all_in cls (span cls s).1 = true.
Proof.
  induction s as [|c s IH]; simpl; [done|].
  destruct (cls c) eqn:Hc; simpl; [by rewrite Hc, IH | done].
Qed.

Lemma span_stops cls s : stops cls (span cls s).2.
Proof.
  induction s as [|c s IH]; simpl; [done|].
  destruct (cls c) eqn:Hc; simpl; done.
Qed.

Lemma span_unique cls m rest :
  all_in cls m = true -> stops cls rest -> span cls (m +:+ rest) = (m, rest).
Proof.
  induction m as [|c m IH]; rewrite ?str_app_cons, ?str_app_nil; simpl.
  - intros _ Hs. destruct rest as [|c r]; simpl in *; [done|]. by rewrite Hs.
  - intros [Hc Hm]%andb_prop Hs. rewrite Hc, (IH Hm Hs). done.
Qed.

Lemma tail_ok_app m s :
  all_in dot_class m = true -> tail_ok (m +:+ s) = tail_ok s.
Proof.
  unfold tail_ok. induction m as [|c m IH]; rewrite ?str_app_cons, ?str_app_nil; simpl; [done|].
  intros [Hc Hm]%andb_prop. rewrite Hc. simpl. auto.
Qed.

Lemma star_ext {R} cls s (k k' : string -> string -> option R) :
  (forall m rest, k m rest = k' m rest) -> star cls s k = star cls s k'.
Proof.
  revert k k'. induction s as [|c s IH]; intros k k' Hk; simpl; [apply Hk|].
  destruct (cls c); [|apply Hk].
  rewrite (IH _ (fun m rest => k' (String c m) rest)) by (intros; apply Hk).
  by rewrite Hk.
Qed.

(** The greedy choice is tried first. *)
Lemma star_first {R} cls s (k : string -> string -> option R) r :
  k (span cls s).1 (span cls s).2 = Some r -> star cls s k = Some r.
Proof.
  revert k. induction s as [|c s IH]; intros k; simpl; [done|].
  destruct (cls c); simpl; [|done].
  intros H. by rewrite (IH (fun m rest => k (String c m) rest) H).
Qed.

(** When no split of the input satisfies the continuation, the loop
    fails after trying them all. *)
Lemma star_none {R} cls s (k : string -> string -> option R) :
  (forall m rest, m +:+ rest = s -> all_in cls m = true -> k m rest = None) ->
  star cls s k = None.
Proof.
  revert k. induction s as [|c s IH]; intros k Hk; simpl.
  - by apply Hk.
  - destruct (cls c) eqn:Hc; [|by apply Hk].
    rewrite IH; [by apply Hk|].
    intros m rest <- Hm. apply Hk; [by rewrite str_app_cons|]. simpl. by rewrite Hc, Hm.
Qed.

Lemma eol_stops s : eol s = true -> stops dot_class s.
Proof.
  destruct s as [|c [|c' s]]; simpl; try done.
  intros H. unfold dot_class. by rewrite H.
Qed.

Lemma star_dot_final h p s :
  star dot_class s (final h p) =
  if tail_ok s
  then Some {| group_host := h; group_port := p;
               group_path_remainder := (span dot_class s).1 |}
  else None.
Proof.
  destruct (tail_ok s) eqn:Hok.
  - apply star_first. unfold final. unfold tail_ok in Hok. by rewrite Hok.
  - apply star_none. intros m rest <- Hm. unfold final.
    destruct (eol rest) eqn:He; [|done].
    unfold tail_ok in Hok.
    rewrite (span_unique _ _ _ Hm (eol_stops _ He)) in Hok. simpl in Hok. congruence.
Qed.

Lemma port_span_tail_ok s : tail_ok (port_span s).2 = tail_ok s.
Proof.
  destruct s as [|c t]; simpl; [done|].
  destruct (Ascii.eqb_spec c ":") as [->|]; [|done].
  destruct (span digit_class t) as [d t'] eqn:Hsp.
  destruct d as [|c0 d]; [done|]. simpl.
  pose proof (span_app digit_class t) as Happ.
  pose proof (span_all_in digit_class t) as Hall.
  rewrite Hsp in Happ, Hall. simpl in Happ, Hall.
  rewrite <- Happ.
  change (String ":" (String c0 d +:+ t')) with (String ":" (String c0 d) +:+ t').
  rewrite tail_ok_app; [done|].
  simpl. apply andb_prop in Hall as [H1 H2].
  rewrite (digit_class_dot _ H1). simpl.
  apply (all_in_impl digit_class); [apply digit_class_dot | exact H2].
Qed.

Lemma after_host_greedy h s1 :
  after_host h s1 =
  if tail_ok s1
  then Some {| group_host := h; group_port := (port_span s1).1;
               group_path_remainder := (span dot_class (port_span s1).2).1 |}
  else None.
Proof.
  unfold after_host, opt. rewrite star_dot_final.
  pose proof (port_span_tail_ok s1) as Htail.
  destruct s1 as [|c t]; [done|].
  unfold lit, port_span in *.
  destruct (Ascii.eqb_spec c ":") as [->|Hc]; [|done].
  unfold plus.
  destruct t as [|c0 t0]; [done|].
  cbn [span] in *.
  destruct (digit_class c0) eqn:Hc0; [|done].
  cbn [fst snd] in *.
  rewrite (star_ext _ _ _ (fun m rest =>
    if tail_ok rest
    then Some {| group_host := h; group_port := Some (String c0 m);
                 group_path_remainder := (span dot_class rest).1 |}
    else None)) by (intros; apply star_dot_final).
  destruct (tail_ok (String ":" (String c0 t0))) eqn:Hok.
  - erewrite star_first; [done|]. cbn beta. by rewrite Htail.
  - rewrite star_none; [done|].
    intros m rest <- Hm.
    change (String ":" (String c0 (m +:+ rest)))
      with (String ":" (String c0 m) +:+ rest) in Hok.
    rewrite tail_ok_app in Hok; [by rewrite Hok|].
    simpl. rewrite (digit_class_dot _ Hc0). simpl.
    apply (all_in_impl digit_class); [apply digit_class_dot | exact Hm].
Qed.

(** Backtracking never changes the match: what follows the host and the
    port, [.*$], accepts the input left or refuses it whatever the two
    groups give back. *)
Lemma search_address_greedy s : search_address s = greedy_address s.
Proof.
  unfold search_address, greedy_address, plus.
  destruct s as [|c s']; simpl; [done|].
  destruct (host_class c) eqn:Hc; simpl; [|done].
  rewrite (star_ext _ _ _ (fun m rest => after_host (String c m) rest))
    by (intros; unfold after_host, opt, final; done).
  rewrite (star_ext _ _ _ (fun m rest =>
    if tail_ok rest
    then Some {| group_host := String c m; group_port := (port_span rest).1;
                 group_path_remainder := (span dot_class (port_span rest).2).1 |}
    else None)) by (intros; apply after_host_greedy).
  pose proof (port_span_tail_ok (span host_class s').2) as Htail.
  destruct (port_span (span host_class s').2) as [p s2] eqn:Hp.
  destruct (span dot_class s2) as [r s3] eqn:Hr. simpl in Htail.
  unfold tail_ok in Htail at 1. rewrite Hr in Htail. simpl in Htail.
  destruct (eol s3) eqn:He.
  - apply star_first. rewrite <- Htail, Hp. simpl. by rewrite Hr.
  - apply star_none. intros m rest <- Hm.
    rewrite <- (tail_ok_app (span host_class (m +:+ rest)).1) in Htail
      by (apply (all_in_impl host_class); [apply host_class_dot|apply span_all_in]).
    rewrite span_app in Htail.
    rewrite tail_ok_app in Htail
      by (by apply (all_in_impl host_class); [apply host_class_dot|]).
    by rewrite <- Htail.
Qed.

End ReFacts.

Section AddressFacts.
Import Re.






(** Beyond the limit [int] raises, whatever the characters. *)
Lemma py_int_long s :
  (int_max_str_digits < String.length s)%nat -> py_int s = Raise ValueError.
Proof.
  intros Hlen. unfold py_int.
  by destruct (Nat.ltb_spec int_max_str_digits (String.length s)); [|lia].
Qed.

Lemma py_int_inv s z :
  py_int s = Ok z ->
  (String.length s <= int_max_str_digits)%nat /\
  exists d, NilZero.uint_of_string s = Some d /\ z = Z.of_N (N.of_uint d).
Proof.
  unfold py_int.
  destruct (Nat.ltb_spec int_max_str_digits (String.length s)); [done|].
  destruct (NilZero.uint_of_string s) as [d|]; [|done].
  intros [= <-]. eauto.
Qed.

Lemma py_int_nonneg s z : py_int s = Ok z -> (0 <= z)%Z.
Proof. intros (_ & d & _ & ->)%py_int_inv. lia. Qed.



Lemma uint_of_string_digits s :
  all_in digit_class s = true -> is_Some (NilEmpty.uint_of_string s).
Proof.
  induction s as [|c s IH]; simpl; [eauto|].
  intros [Hc [d ->]%IH]%andb_prop.
  destruct c as [[] [] [] [] [] [] [] []]; try discriminate Hc; simpl; eauto.
Qed.

(** Within its limit, [int] does not fail on what the port group
    captures. *)
Lemma py_int_digits c s :
  all_in digit_class (String c s) = true ->
  (String.length (String c s) <= int_max_str_digits)%nat ->
  exists z, py_int (String c s) = Ok z.
Proof.
  intros [d Hd]%uint_of_string_digits Hlen. unfold py_int.
  destruct (Nat.ltb_spec int_max_str_digits (String.length (String c s))); [lia|].
  unfold NilZero.uint_of_string. rewrite Hd. eauto.
Qed.

(** The prefix a greedy run takes stops where the input left stops. *)
Lemma span_prefix_stops (p q : ascii -> bool) s :
  stops p s -> stops p (span q s).1.
Proof. destruct s as [|c s]; simpl; [done|]. by destruct (q c). Qed.

Lemma stops_impl (p q : ascii -> bool) s :
  (forall c, p c = true -> q c = true) -> stops q s -> stops p s.
Proof.
  intros Hpq. destruct s as [|c s]; simpl; [done|].
  intros Hq. destruct (p c) eqn:Hp; [|done]. rewrite (Hpq _ Hp) in Hq. done.
Qed.

Lemma port_span_text s :
  match (port_span s).1 with
  | Some p => String ":" p
  | None => ""
  end +:+ (port_span s).2 = s.
Proof.
  destruct s as [|c t]; simpl; [done|].
  destruct (Ascii.eqb_spec c ":") as [->|]; [|done].
  pose proof (span_app digit_class t) as Happ.
  destruct (span digit_class t) as [[|c0 d] t']; simpl in *; [done|].
  by rewrite str_app_cons, Happ.
Qed.

(** After the host and the optional port, the input left does not start
    with a digit. *)
Lemma port_span_stops s :
  stops host_class s -> stops digit_class (port_span s).2.
Proof.
  destruct s as [|c t]; simpl; [done|].
  intros Hc.
  destruct (Ascii.eqb_spec c ":") as [->|].
  - pose proof (span_stops digit_class t) as Hst.
    destruct (span digit_class t) as [[|c0 d] t']; simpl in *; done.
  - simpl. destruct (digit_class c) eqn:Hd; [|done].
    by rewrite (digit_class_host _ Hd) in Hc.
Qed.

Lemma port_span_digits s d :
  (port_span s).1 = Some d -> d <> "" /\ all_in digit_class d = true.
Proof.
  destruct s as [|c t]; simpl; [done|].
  destruct (Ascii.eqb c ":"); [|done].
  pose proof (span_all_in digit_class t) as Hall.
  destruct (span digit_class t) as [[|c0 d'] t']; simpl in *; [done|].
  intros [= <-]. done.
Qed.

Lemma eol_cases s : eol s = true -> s = "" \/ s = String "010" "".
Proof.
  destruct s as [|c [|c' s]]; simpl; [auto| |done].
  intros ->%Ascii.eqb_eq. auto.
Qed.

(** What a match of the address pattern is made of. *)
Lemma greedy_address_inv s m :
  greedy_address s = Some m ->
  group_host m = (span host_class s).1 /\
  group_host m <> "" /\
  all_in host_class (group_host m) = true /\
  group_port m = (port_span (span host_class s).2).1 /\
  all_in dot_class (group_path_remainder m) = true /\
  stops digit_class (group_path_remainder m) /\
  (s = matched_text m \/ s = matched_text m +:+ String "010" "").
Proof.
  unfold greedy_address.
  pose proof (span_app host_class s) as Hs.
  pose proof (span_all_in host_class s) as Hall.
  pose proof (span_stops host_class s) as Hst.
  destruct (span host_class s) as [h s1]. simpl in *.
  destruct h as [|c h]; [done|].
  pose proof (port_span_text s1) as Hs1.
  pose proof (port_span_stops s1 Hst) as Hst1.
  destruct (port_span s1) as [p s2]. simpl in *.
  pose proof (span_app dot_class s2) as Hs2.
  pose proof (span_all_in dot_class s2) as Hall2.
  pose proof (span_prefix_stops digit_class dot_class s2 Hst1) as Hst2.
  destruct (span dot_class s2) as [r s3]. simpl in *.
  destruct (eol s3) eqn:He; [|done].
  intros [= <-]. simpl. repeat split; try done.
  unfold matched_text. simpl.
  rewrite <- Hs, <- Hs1, <- Hs2.
  destruct (eol_cases _ He) as [-> | ->].
  - left. by rewrite str_app_nil_r.
  - right. by rewrite !str_app_assoc.
Qed.


End AddressFacts.

(* ===================================================================== *)
(** ** The merged keyword arguments                                       *)
(* ===================================================================== *)

Section Kwargs.
Import FTP.

(** The second dictionary wins, key by key. *)
Lemma update_items_lookup (dst src : gmap string pyval) (k : string) :
  update_items dst src !! k =
  match src !! k with
  | Some v => Some v
  | None => dst !! k
  end.
Proof.
  unfold update_items.
  apply (map_fold_weak_ind (fun r m =>
    r !! k = match m !! k with Some v => Some v | None => dst !! k end)).
  - by rewrite lookup_empty.
  - intros i x m r Hi IH.
    destruct (decide (i = k)) as [->|Hne].
    + by rewrite !lookup_insert_eq.
    + by rewrite !lookup_insert_ne.
Qed.

Lemma kwargs_to_use_ok self kw :
  kwargs_to_use self = Ok kw ->
  exists p, port self = Ok p /\
    kw = update_items (update_items (defaults self p) (provider_kwargs (provider self)))
                      (kwargs self).
Proof.
  unfold kwargs_to_use. destruct (port self) as [p|e]; [|done].
  intros [= <-]. by exists p.
Qed.

Lemma kwargs_to_use_lookup self kw k :
  kwargs_to_use self = Ok kw ->
  exists p, port self = Ok p /\
    kw !! k =
    match kwargs self !! k with
    | Some v => Some v
    | None =>
        match provider_kwargs (provider self) !! k with
        | Some v => Some v
        | None => defaults self p !! k
        end
    end.
Proof.
  intros (p & Hp & ->)%kwargs_to_use_ok. exists p. split; [done|].
  by rewrite !update_items_lookup.
Qed.

Lemma defaults_is_Some self p k :
  k ∈ ["host"; "username"; "password"; "port"; "encrypt_data_channel"] ->
  is_Some (defaults self p !! k).
Proof.
  unfold defaults. rewrite !elem_of_cons, elem_of_nil.
  intros [->|[->|[->|[->|[->|[]]]]]]; vm_compute; eauto.
Qed.

(** The five keys [ftpc] reads are always there: no [KeyError]. *)
Lemma kwargs_to_use_getitem self kw k :
  kwargs_to_use self = Ok kw ->
  k ∈ ["host"; "username"; "password"; "port"; "encrypt_data_channel"] ->
  getitem kw k = Ok (kw_get kw k).
Proof.
  intros Hkw Hk. destruct (kwargs_to_use_lookup _ _ k Hkw) as (p & _ & Hl).
  unfold getitem, kw_get. rewrite Hl.
  destruct (kwargs self !! k); [done|].
  destruct (provider_kwargs (provider self) !! k); [done|].
  by destruct (defaults_is_Some self p k Hk) as [v ->].
Qed.

Lemma port_malformed self :
  _matched_address self = None ->
  port self = Raise (AttributeError "'NoneType' object has no attribute 'group'").
Proof. unfold port. by intros ->. Qed.

Lemma matched_greedy self :
  _matched_address self = Re.greedy_address (_iofile_file self).
Proof. apply search_address_greedy. Qed.

(** What [port] evaluates on a matched address: [int] of the port group,
    which is never empty, or 21. *)
Lemma port_matched self m :
  _matched_address self = Some m ->
  port self = match Re.group_port m with Some d => py_int d | None => Ok 21%Z end /\
  (forall d, Re.group_port m = Some d ->
     d <> "" /\ Re.all_in Re.digit_class d = true).
Proof.
  intros Hm. unfold port. rewrite Hm.
  rewrite matched_greedy in Hm. apply greedy_address_inv in Hm as (_ & _ & _ & Hp & _).
  destruct (Re.group_port m) as [d|] eqn:Hd; [|by split].
  symmetry in Hp. apply port_span_digits in Hp as [Hne Hall].
  split; [|by intros ? [= <-]].
  by destruct d.
Qed.

Lemma port_wellformed self m :
  _matched_address self = Some m -> port_in_limit m = true ->
  exists p, port self = Ok p /\ (0 <= p)%Z.
Proof.
  intros Hm Hlim. destruct (port_matched _ _ Hm) as [-> Hd].
  unfold port_in_limit in Hlim.
  destruct (Re.group_port m) as [d|]; [|exists 21%Z; split; [done|lia]].
  destruct (Hd d eq_refl) as [Hne Hall].
  destruct d as [|c d]; [done|]. apply Nat.leb_le in Hlim.
  destruct (py_int_digits _ _ Hall Hlim) as [z Hz]. exists z. split; [done|].
  by apply py_int_nonneg in Hz.
Qed.

(** A port of more digits than [int] converts: [ValueError]. *)
Lemma port_too_long self m :
  _matched_address self = Some m -> port_in_limit m = false ->
  port self = Raise ValueError.
Proof.
  intros Hm Hlim. destruct (port_matched _ _ Hm) as [-> _].
  unfold port_in_limit in Hlim.
  destruct (Re.group_port m) as [d|]; [|done].
  apply Nat.leb_gt in Hlim. by apply py_int_long.
Qed.

(** On a matched address [port] raises nothing else, and only then. *)
Lemma port_raises_inv self m e :
  _matched_address self = Some m -> port self = Raise e ->
  e = ValueError /\ port_in_limit m = false.
Proof.
  intros Hm He. destruct (port_in_limit m) eqn:Hlim.
  - destruct (port_wellformed _ _ Hm Hlim) as (p & Hp & _). congruence.
  - rewrite (port_too_long _ _ Hm Hlim) in He. by injection He as <-.
Qed.

Lemma port_returns_inv self m p :
  _matched_address self = Some m -> port self = Ok p -> port_in_limit m = true.
Proof.
  intros Hm Hp. destruct (port_in_limit m) eqn:Hlim; [done|].
  rewrite (port_too_long _ _ Hm Hlim) in Hp. done.
Qed.

Lemma kwargs_to_use_malformed self :
  _matched_address self = None ->
  kwargs_to_use self = Raise (AttributeError "'NoneType' object has no attribute 'group'").
Proof. intros H. unfold kwargs_to_use. by rewrite (port_malformed _ H). Qed.

Lemma kwargs_to_use_wellformed self m :
  _matched_address self = Some m -> port_in_limit m = true ->
  exists kw, kwargs_to_use self = Ok kw.
Proof.
  intros Hm Hlim. destruct (port_wellformed _ _ Hm Hlim) as (p & Hp & _).
  unfold kwargs_to_use. rewrite Hp. eauto.
Qed.

Lemma kwargs_to_use_too_long self m :
  _matched_address self = Some m -> port_in_limit m = false ->
  kwargs_to_use self = Raise ValueError.
Proof.
  intros Hm Hlim. unfold kwargs_to_use. by rewrite (port_too_long _ _ Hm Hlim).
Qed.

Lemma kwargs_to_use_returns_inv self m kw :
  _matched_address self = Some m -> kwargs_to_use self = Ok kw ->
  port_in_limit m = true.
Proof.
  intros Hm (p & Hp & _)%kwargs_to_use_ok. by eapply port_returns_inv.
Qed.

End Kwargs.

(* ===================================================================== *)
(** ** The context manager                                                *)
(* ===================================================================== *)

Section Scoped.
Context {E : Env}.
Import FTP.

Lemma ftpc_scoped {A} self kw (body : Conn -> M A) st :
  kwargs_to_use self = Ok kw -> ftpc self body st = scoped kw body st.
Proof.
  intros Hkw. unfold ftpc, scoped, bind, lift. rewrite Hkw.
  rewrite !(kwargs_to_use_getitem _ _ _ Hkw) by five_keys.
  reflexivity.
Qed.

Lemma ftpc_raise {A} self e (body : Conn -> M A) st :
  kwargs_to_use self = Raise e -> ftpc self body st = (Raise e, st).
Proof. intros Hkw. unfold ftpc, bind, lift. by rewrite Hkw. Qed.

(** A malformed address stops [ftpc] before it calls [FTPHost]. *)
Lemma ftpc_malformed {A} self (body : Conn -> M A) st :
  _matched_address self = None ->
  ftpc self body st =
  (Raise (AttributeError "'NoneType' object has no attribute 'group'"), st).
Proof. intros H. apply ftpc_raise. by apply kwargs_to_use_malformed. Qed.

Lemma scoped_connect_fails {A} kw (body : Conn -> M A) st e w :
  connect kw (world st) = (inr e, w) ->
  scoped kw body st = (Raise (LibError e), logged st (connect_event kw) w).
Proof. intros H. unfold scoped, bind, call. by rewrite H. Qed.

(** The block raises: the exception leaves [ftpc] where the block left
    it, and [conn.close()] is not called. *)
Lemma scoped_body_raises {A} kw (body : Conn -> M A) st c w e st' :
  connect kw (world st) = (inl c, w) ->
  body c (logged st (connect_event kw) w) = (Raise e, st') ->
  scoped kw body st = (Raise e, st').
Proof.
  intros H Hb. unfold scoped, bind, call. rewrite H.
  unfold logged in Hb. by rewrite Hb.
Qed.

(** The block returns: [conn.close()] is called, and its exception, if
    any, replaces the value. *)
Lemma scoped_body_returns {A} kw (body : Conn -> M A) st c w r st' :
  connect kw (world st) = (inl c, w) ->
  body c (logged st (connect_event kw) w) = (Ok r, st') ->
  scoped kw body st =
  match conn_close c (world st') with
  | (inl _, w') => (Ok r, logged st' (EClose c) w')
  | (inr e, w') => (Raise (LibError e), logged st' (EClose c) w')
  end.
Proof.
  intros H Hb. unfold scoped, bind, call, ret. rewrite H.
  unfold logged in Hb. rewrite Hb.
  by destruct (conn_close c (world st')) as [[[]|e] w'].
Qed.

Lemma call_run {A} ev (op : World -> outcome A * World) st :
  call ev op st =
  match op (world st) with
  | (inl a, w) => (Ok a, logged st ev w)
  | (inr e, w) => (Raise (LibError e), logged st ev w)
  end.
Proof. unfold call. by destruct (op (world st)) as [[a|e] w]. Qed.

Lemma raise_SFTPFileException {A} st :
  @raise_global E A "SFTPFileException" st = (Raise (NameError "SFTPFileException"), st).
Proof. reflexivity. Qed.

(** [exists] on a malformed address: the [raise] statement, and nothing
    else. *)
Lemma exists_malformed self st :
  _matched_address self = None ->
  exists_ self st = (Raise (NameError "SFTPFileException"), st).
Proof. intros H. unfold exists_. by rewrite H. Qed.

Lemma exists_wellformed self m kw st :
  _matched_address self = Some m ->
  kwargs_to_use self = Ok kw ->
  exists_ self st =
  scoped kw (fun conn => call (EExists conn (remote_path self))
                              (path_exists conn (remote_path self))) st.
Proof. intros H Hkw. unfold exists_. rewrite H. by apply ftpc_scoped. Qed.

(** When [exists] returns, [ftpc] got its keyword arguments. *)
Lemma exists_returns_kwargs self st b st1 :
  exists_ self st = (Ok b, st1) -> exists kw, kwargs_to_use self = Ok kw.
Proof.
  intros Hex. destruct (_matched_address self) as [m|] eqn:Hm.
  2:{ rewrite (exists_malformed _ _ Hm) in Hex. discriminate Hex. }
  destruct (kwargs_to_use self) as [kw|e] eqn:Hkw; [eauto|].
  unfold exists_ in Hex. rewrite Hm, (ftpc_raise _ _ _ _ Hkw) in Hex.
  discriminate Hex.
Qed.

End Scoped.

(* ===================================================================== *)
(** ** The operations                                                     *)
(* ===================================================================== *)

Section OperationFacts.
Context {E : Env}.
Import FTP.

Lemma mtime_absent self st st1 :
  exists_ self st = (Ok false, st1) ->
  mtime self st = (Raise (NameError "SFTPFileException"), st1).
Proof. intros H. unfold mtime, bind. by rewrite H. Qed.

Lemma mtime_present self kw st st1 :
  kwargs_to_use self = Ok kw ->
  exists_ self st = (Ok true, st1) ->
  mtime self st =
  scoped kw (fun conn =>
    bind (call (ESync conn) (synchronize_times conn)) (fun _ =>
      call (EGetmtime conn (remote_path self))
           (path_getmtime conn (remote_path self)))) st1.
Proof. intros Hkw H. unfold mtime, bind at 1. rewrite H. by apply ftpc_scoped. Qed.

(** When the file is there and the library does not fail, [mtime]
    synchronises the clocks, then reads the time, then closes. *)
Lemma mtime_sync_then_read self kw st st1 c w1 w2 t w3 w4 :
  kwargs_to_use self = Ok kw ->
  exists_ self st = (Ok true, st1) ->
  connect kw (world st1) = (inl c, w1) ->
  synchronize_times c w1 = (inl tt, w2) ->
  path_getmtime c (remote_path self) w2 = (inl t, w3) ->
  conn_close c w3 = (inl tt, w4) ->
  mtime self st =
  (Ok t, {| world := w4;
            log := log st1 ++ [connect_event kw; ESync c;
                               EGetmtime c (remote_path self); EClose c] |}).
Proof.
  intros Hkw Hex Hc Hs Hg Hcl. rewrite (mtime_present _ _ _ _ Hkw Hex).
  erewrite scoped_body_returns; [|exact Hc|].
  2:{ unfold bind. rewrite call_run. simpl. rewrite Hs.
      rewrite call_run. simpl. rewrite Hg. reflexivity. }
  simpl. rewrite Hcl. unfold logged. simpl.
  by rewrite <- !List.app_assoc.
Qed.

Lemma size_absent self st st1 :
  exists_ self st = (Ok false, st1) ->
  size self st =
  call (ESizeLocal (_iofile_file self)) (iofile_size_local (_iofile_file self)) st1.
Proof. intros H. unfold size, bind. by rewrite H. Qed.

Lemma size_present self kw st st1 :
  kwargs_to_use self = Ok kw ->
  exists_ self st = (Ok true, st1) ->
  size self st =
  scoped kw (fun conn => call (EGetsize conn (remote_path self))
                              (path_getsize conn (remote_path self))) st1.
Proof. intros Hkw H. unfold size, bind. rewrite H. by apply ftpc_scoped. Qed.

Lemma size_exists_raises self st e st1 :
  exists_ self st = (Raise e, st1) -> size self st = (Raise e, st1).
Proof. intros H. unfold size, bind. by rewrite H. Qed.

Lemma download_scoped self make_dest_dirs kw st :
  kwargs_to_use self = Ok kw ->
  download self make_dest_dirs st =
  scoped kw (fun conn =>
    bind (exists_ self) (fun b =>
      if b : bool then
        let dest := Posixpath.dirname (local_path self) in
        bind (peek (os_path_exists dest)) (fun there =>
          bind (if negb there && make_dest_dirs
                then call (EMakedirs dest) (os_makedirs dest)
                else ret tt) (fun _ =>
            bind (call (ESync conn) (synchronize_times conn)) (fun _ =>
              call (EDownload conn (remote_path self) (local_path self))
                   (conn_download conn (remote_path self) (local_path self)))))
      else raise_global "SFTPFileException")) st.
Proof. intros Hkw. unfold download. by apply ftpc_scoped. Qed.

Lemma download_absent self make_dest_dirs kw st c w1 st2 :
  kwargs_to_use self = Ok kw ->
  connect kw (world st) = (inl c, w1) ->
  exists_ self (logged st (connect_event kw) w1) = (Ok false, st2) ->
  download self make_dest_dirs st = (Raise (NameError "SFTPFileException"), st2).
Proof.
  intros Hkw Hc Hex. rewrite (download_scoped _ _ _ _ Hkw).
  eapply scoped_body_raises; [exact Hc|].
  unfold bind. by rewrite Hex.
Qed.

(** On a malformed address no operation reaches the environment: each
    raises and leaves the world and the log as they were. *)
Lemma malformed_no_io self st :
  _matched_address self = None ->
  (is_raise (exists_ self st).1 = true /\ (exists_ self st).2 = st) /\
  (is_raise (mtime self st).1 = true /\ (mtime self st).2 = st) /\
  (is_raise (size self st).1 = true /\ (size self st).2 = st) /\
  (forall mk, is_raise (download self mk st).1 = true /\ (download self mk st).2 = st) /\
  (is_raise (upload self st).1 = true /\ (upload self st).2 = st) /\
  (is_raise (list_ self st).1 = true /\ (list_ self st).2 = st).
Proof.
  intros H. pose proof (exists_malformed self st H) as Hex.
  repeat split.
  - by rewrite Hex.
  - by rewrite Hex.
  - unfold mtime, bind. by rewrite Hex.
  - unfold mtime, bind. by rewrite Hex.
  - by rewrite (size_exists_raises _ _ _ _ Hex).
  - by rewrite (size_exists_raises _ _ _ _ Hex).
  - unfold download. by rewrite ftpc_malformed.
  - unfold download. by rewrite ftpc_malformed.
  - unfold upload. by rewrite ftpc_malformed.
  - unfold upload. by rewrite ftpc_malformed.
  - unfold list_, remote_path, path_remainder. by rewrite H.
  - unfold list_, remote_path, path_remainder. by rewrite H.
Qed.

End OperationFacts.

(* ===================================================================== *)
(** ** Claims about connections and error paths                           *)
(* ===================================================================== *)

(** C1.  The connection of [ftpc] is to be closed on every exit path of
    the block, also when the block raises.  [download] on a file the server
    does not have raises inside its block: the connection it opened (0) is
    never closed, while the one [exists] opened and used without an
    exception (1) is.  The log has no [EClose 0], and the connection is
    still open in the final world. *)
Theorem ftpc_leaves_connection_open_when_block_raises :
  let self := Toy.handle "ftp.example.org/data/zzz.txt" in
  let out := FTP.download self true (Toy.start Toy.world0) in
  let plain_ftp :=
    {| base_class := FTP; sf_port := VInt 21;
       sf_encrypt_data_channel := VBool false; debug_level := VNone |} in
  out.1 = Raise (NameError "SFTPFileException") /\
  log out.2 =
    [ @EConnect Toy.toy_env (VStr "ftp.example.org") VNone VNone plain_ftp;
      @EConnect Toy.toy_env (VStr "ftp.example.org") VNone VNone plain_ftp;
      @EExists Toy.toy_env 1%nat (Some "/data/zzz.txt");
      @EClose Toy.toy_env 1%nat ] /\
  ((@EClose Toy.toy_env 0%nat) ∉ log out.2) /\
  Toy.open_conns (world out.2) = [0%nat].
Proof.
  vm_compute. repeat split.
  intros H. repeat (apply elem_of_cons in H as [H|H]; [discriminate H|]).
  by apply elem_of_nil in H.
Qed.

(** C2, as the claim has it, fails, on both sides.  On an address the
    pattern does not match, [exists] does not return false.  And on an
    address the pattern matches [exists] can raise an error of its own: a
    port of 4301 digits is more than [int] converts, and [exists] raises
    its [ValueError] before it connects. *)
Lemma exists_on_malformed_address_counterexample :
  let long := Toy.handle ("h:" +:+ Posixpath.str_mul "1" 4301 +:+ "/x") in
  (FTP._matched_address (Toy.handle "/no/host") = None /\
   (FTP.exists_ (Toy.handle "/no/host") (Toy.start Toy.world0)).1 <> Ok false) /\
  (FTP.host long = Some "h" /\
   FTP.path_remainder long = Some "/x" /\
   FTP.exists_ long (Toy.start Toy.world0) = (Raise ValueError, Toy.start Toy.world0)).
Proof. vm_compute. repeat split. discriminate. Qed.

(** C2, amended.  On a well-formed address whose port, if it names one,
    has no more digits than [int] converts, [exists] opens exactly one
    connection, with the merged keyword arguments.  If the library fails
    to connect its error propagates; otherwise [exists] asks the server
    once whether the remote path exists.  If that query fails its error
    propagates and the connection is left open; otherwise the connection
    is closed and the server's answer returned, or the error of the close
    raised.  Every outcome is fixed by the results of those three library
    calls, and the log holds them and nothing else.  On a longer port
    [int] raises [ValueError], and on a malformed address the [raise]
    statement raises [NameError]: in both cases the world and the log are
    untouched, no connection is opened, and nothing is returned. *)
Theorem exists_single_query {E : Env} (self : FTP.RemoteObject) (st : state) :
  match FTP._matched_address self with
  | None => FTP.exists_ self st = (Raise (NameError "SFTPFileException"), st)
  | Some m =>
      if port_in_limit m then
        exists kw, FTP.kwargs_to_use self = Ok kw /\
          FTP.exists_ self st =
          let rp := FTP.remote_path self in
          match FTP.connect kw (world st) with
          | (inr e, w1) =>
              (Raise (LibError e),
               {| world := w1; log := log st ++ [FTP.connect_event kw] |})
          | (inl c, w1) =>
              match path_exists c rp w1 with
              | (inr e, w2) =>
                  (Raise (LibError e),
                   {| world := w2;
                      log := log st ++ [FTP.connect_event kw; EExists c rp] |})
              | (inl b, w2) =>
                  match conn_close c w2 with
                  | (inl _, w3) =>
                      (Ok b,
                       {| world := w3;
                          log := log st ++ [FTP.connect_event kw; EExists c rp;
                                            EClose c] |})
                  | (inr e, w3) =>
                      (Raise (LibError e),
                       {| world := w3;
                          log := log st ++ [FTP.connect_event kw; EExists c rp;
                                            EClose c] |})
                  end
              end
          end
      else FTP.exists_ self st = (Raise ValueError, st)
  end.
Proof.
  destruct (FTP._matched_address self) as [m|] eqn:Hm.
  - destruct (port_in_limit m) eqn:Hlim.
    + destruct (kwargs_to_use_wellformed _ _ Hm Hlim) as [kw Hkw].
      exists kw. split; [done|].
      rewrite (exists_wellformed _ _ _ _ Hm Hkw). cbv zeta.
      destruct (FTP.connect kw (world st)) as [[c|e] w1] eqn:Hc.
      2:{ by rewrite (scoped_connect_fails _ _ _ _ _ Hc). }
      destruct (path_exists c (FTP.remote_path self) w1) as [[b|e] w2] eqn:Hq.
      2:{ erewrite scoped_body_raises; [|exact Hc|].
          2:{ rewrite call_run. simpl. rewrite Hq. reflexivity. }
          unfold FTP.logged. simpl. by rewrite <- !List.app_assoc. }
      erewrite scoped_body_returns; [|exact Hc|rewrite call_run; simpl; by rewrite Hq].
      simpl. destruct (conn_close c w2) as [[[]|e] w3] eqn:Hcl;
        unfold FTP.logged; simpl; by rewrite <- !List.app_assoc.
    + unfold FTP.exists_. rewrite Hm.
      apply ftpc_raise. by eapply kwargs_to_use_too_long.
  - by apply exists_malformed.
Qed.

(** C3.  A malformed address is to fail with the typed address error.
    On ["/no/host"] nothing is matched; [host] and [path_remainder] are
    [None], [port] raises [AttributeError], and [exists], whose [raise]
    names an exception class the module never binds, raises [NameError]
    where the imported [FTPFileException] was meant.  The world and the log
    are untouched. *)
Theorem malformed_address_raises_untyped :
  let self := Toy.handle "/no/host" in
  FTP._matched_address self = None /\
  FTP.host self = None /\
  FTP.path_remainder self = None /\
  FTP.port self = Raise (AttributeError "'NoneType' object has no attribute 'group'") /\
  FTP.exists_ self (Toy.start Toy.world0)
    = (Raise (NameError "SFTPFileException"), Toy.start Toy.world0) /\
  (FTP.exists_ self (Toy.start Toy.world0)).1 <> Raise (Exc "FTPFileException").
Proof. vm_compute. repeat split; discriminate. Qed.

(** C5.  [mtime] on a path the server does not have is to fail with the
    typed missing-file error.  It raises [NameError]: its [raise] names
    [SFTPFileException], which the module never binds. *)
Theorem mtime_on_missing_file_raises_NameError :
  let self := Toy.handle "ftp.example.org/data/zzz.txt" in
  (FTP.exists_ self (Toy.start Toy.world0)).1 = Ok false /\
  (FTP.mtime self (Toy.start Toy.world0)).1 = Raise (NameError "SFTPFileException") /\
  (FTP.mtime self (Toy.start Toy.world0)).1 <> Raise (Exc "FTPFileException").
Proof. vm_compute. repeat split; discriminate. Qed.

(** C7.  [download] on a path the server does not have is to fail with
    the typed missing-file error.  It raises [NameError], for the same
    misnamed class, and writes nothing locally. *)
Theorem download_on_missing_file_raises_NameError :
  let self := Toy.handle "ftp.example.org/data/zzz.txt" in
  let out := FTP.download self true (Toy.start Toy.world0) in
  out.1 = Raise (NameError "SFTPFileException") /\
  out.1 <> Raise (Exc "FTPFileException") /\
  Toy.local_files (world out.2) = [] /\
  Toy.local_dirs (world out.2) = [].
Proof. vm_compute. repeat split; discriminate. Qed.

(** C10.  The three [raise] statements of [exists], [mtime] and
    [download] name [SFTPFileException].  The module binds
    [FTPFileException] but not that name, which is no builtin either; so
    each branch, when reached, raises [NameError] and not the exception
    class of the module: [exists] on a malformed address, [mtime] when
    [exists] answers false, [download] when [exists], run inside its block,
    answers false. *)
Theorem error_paths_raise_NameError {E : Env}
        (self : FTP.RemoteObject) (make_dest_dirs : bool) (st : state) :
  ("SFTPFileException" ∉ (FTP.module_globals ++ FTP.builtin_exceptions)%list) /\
  ("FTPFileException" ∈ FTP.module_globals) /\
  (forall st0, @FTP.raise_global E unit "FTPFileException" st0
               = (Raise (Exc "FTPFileException"), st0)) /\
  NameError "SFTPFileException" <> Exc "FTPFileException" /\
  (FTP._matched_address self = None ->
   FTP.exists_ self st = (Raise (NameError "SFTPFileException"), st)) /\
  (forall st1,
     FTP.exists_ self st = (Ok false, st1) ->
     FTP.mtime self st = (Raise (NameError "SFTPFileException"), st1)) /\
  (forall kw c w1 st2,
     FTP.kwargs_to_use self = Ok kw ->
     FTP.connect kw (world st) = (inl c, w1) ->
     FTP.exists_ self (FTP.logged st (FTP.connect_event kw) w1) = (Ok false, st2) ->
     FTP.download self make_dest_dirs st
       = (Raise (NameError "SFTPFileException"), st2)).
Proof.
  split; [|split; [|split; [|split; [|split; [|split]]]]].
  - apply (bool_decide_unpack _). vm_compute. exact I.
  - apply (bool_decide_unpack _). vm_compute. exact I.
  - reflexivity.
  - discriminate.
  - apply exists_malformed.
  - intros st1. apply mtime_absent.
  - intros kw c w1 st2. apply download_absent.
Qed.

Lemma error_paths_raise_NameError_witness :
  let self := Toy.handle "ftp.example.org/data/zzz.txt" in
  FTP.mtime self (Toy.start Toy.world0)
    = (Raise (NameError "SFTPFileException"),
       (FTP.exists_ self (Toy.start Toy.world0)).2).
Proof.
  intros self.
  destruct (error_paths_raise_NameError self true (Toy.start Toy.world0))
    as (_ & _ & _ & _ & _ & Hm & _).
  apply Hm. vm_compute. reflexivity.
Defined.

(* ===================================================================== *)
(** ** Claims about the address                                           *)
(* ===================================================================== *)




(* ===================================================================== *)
(** ** Claims about the configuration                                     *)
(* ===================================================================== *)

(** The dictionary [ftpc] connects with, layer by layer: a key of the
    per-file [kwargs] has the per-file value; a key of the provider's
    [kwargs] only has the provider's value; any other key has the value of
    the first five assignments, which are no credentials, the port of the
    address (21 when the address names none) and the handle's own
    encryption flag.  [ftpc] connects with exactly this dictionary, and the
    transport class is [FTP_TLS] exactly when the merged flag is true. *)
Lemma merged_config_precedence {E : Env}
        (self : FTP.RemoteObject) (kw : gmap string pyval) :
  FTP.kwargs_to_use self = Ok kw ->
  (forall k v, FTP.kwargs self !! k = Some v -> kw !! k = Some v) /\
  (forall k v,
     FTP.kwargs self !! k = None ->
     FTP.provider_kwargs (FTP.provider self) !! k = Some v ->
     kw !! k = Some v) /\
  (exists p,
     FTP.port self = Ok p /\
     (forall m, FTP._matched_address self = Some m ->
                Re.group_port m = None -> p = 21%Z) /\
     (forall k,
        FTP.kwargs self !! k = None ->
        FTP.provider_kwargs (FTP.provider self) !! k = None ->
        kw !! k = FTP.defaults self p !! k) /\
     FTP.defaults self p !! "host" = Some (of_opt_str (FTP.host self)) /\
     FTP.defaults self p !! "username" = Some VNone /\
     FTP.defaults self p !! "password" = Some VNone /\
     FTP.defaults self p !! "port" = Some (VInt p) /\
     FTP.defaults self p !! "encrypt_data_channel"
       = Some (FTP.encrypt_data_channel self)) /\
  (forall A (body : Conn -> M A) st,
     FTP.ftpc self body st = FTP.scoped kw body st) /\
  (base_class (FTP.session_of kw) = FTP_TLS <->
   truthy (FTP.kw_get kw "encrypt_data_channel") = true).
Proof.
  intros Hkw.
  split; [|split; [|split; [|split]]].
  - intros k v Hk. destruct (kwargs_to_use_lookup _ _ k Hkw) as (p & _ & ->).
    by rewrite Hk.
  - intros k v Hk Hpk. destruct (kwargs_to_use_lookup _ _ k Hkw) as (p & _ & ->).
    by rewrite Hk, Hpk.
  - destruct (kwargs_to_use_ok _ _ Hkw) as (p & Hp & Heq).
    exists p. split; [done|]. split.
    + intros m Hm Hnone. unfold FTP.port in Hp. rewrite Hm, Hnone in Hp. congruence.
    + split; [|by vm_compute].
      intros k Hk Hpk. subst kw. by rewrite !update_items_lookup, Hk, Hpk.
  - intros A body st. by apply ftpc_scoped.
  - unfold FTP.session_of, FTP.ftp_base_class. simpl.
    destruct (truthy (FTP.kw_get kw "encrypt_data_channel")); split; congruence.
Qed.

Lemma merged_config_precedence_witness :
  let self :=
    {| FTP.args := [];
       FTP.kwargs := {[ "port" := VInt 990 ]};
       FTP.provider :=
         {| FTP.provider_args := [];
            FTP.provider_kwargs :=
              <["port" := VInt 2121]> {[ "encrypt_data_channel" := VBool true ]} |};
       FTP.encrypt_data_channel := VBool false;
       FTP._iofile_file := "ftp.example.org/data/a.txt" |} in
  let kw :=
    FTP.update_items
      (FTP.update_items (FTP.defaults self 21)
                        (FTP.provider_kwargs (FTP.provider self)))
      (FTP.kwargs self) in
  FTP.kwargs_to_use self = Ok kw /\
  kw !! "port" = Some (VInt 990) /\
  kw !! "encrypt_data_channel" = Some (VBool true) /\
  kw !! "username" = Some VNone /\
  base_class (FTP.session_of kw) = FTP_TLS.
Proof.
  intros self kw.
  assert (Hkw : FTP.kwargs_to_use self = Ok kw) by reflexivity.
  destruct (@merged_config_precedence Toy.toy_env self kw Hkw)
    as (Hfile & Hprov & (p & Hp & _ & Hdef & _ & Huser & _) & _ & Htls).
  assert (H1 : kw !! "port" = Some (VInt 990)).
  { apply Hfile. vm_compute. reflexivity. }
  assert (H2 : kw !! "encrypt_data_channel" = Some (VBool true)).
  { apply Hprov; vm_compute; reflexivity. }
  assert (H3 : kw !! "username" = Some VNone).
  { rewrite Hdef; [exact Huser | vm_compute; reflexivity | vm_compute; reflexivity]. }
  split; [exact Hkw|]. split; [exact H1|]. split; [exact H2|]. split; [exact H3|].
  apply Htls. unfold FTP.kw_get. rewrite H2. reflexivity.
Defined.

(** C9.  Per-file settings are to win over the provider's, and the
    comment in [ftpc] says so of the keyword arguments, and of the host
    and port given as part of the file.  But the port of the address and
    the flag [encrypt_data_channel] given to the handle are assigned first
    and the provider's [kwargs] written over them.  The handle below asks
    for an encrypted data channel and names port 990 in its address; its
    provider's [kwargs] hold [encrypt_data_channel = False] and
    [port = 2121].  The merged dictionary has the provider's two values,
    and [exists] connects with plain [FTP] on port 2121. *)
Theorem provider_kwargs_override_address_port_and_handle_flag :
  let self :=
    {| FTP.args := [];
       FTP.kwargs := ∅;
       FTP.provider :=
         {| FTP.provider_args := [];
            FTP.provider_kwargs :=
              <["port" := VInt 2121]> {[ "encrypt_data_channel" := VBool false ]} |};
       FTP.encrypt_data_channel := VBool true;
       FTP._iofile_file := "ftp.example.org:990/data/a.txt" |} in
  let plain_ftp_2121 :=
    {| base_class := FTP; sf_port := VInt 2121;
       sf_encrypt_data_channel := VBool false; debug_level := VNone |} in
  FTP.port self = Ok 990%Z /\
  truthy (FTP.encrypt_data_channel self) = true /\
  (exists kw,
     FTP.kwargs_to_use self = Ok kw /\
     kw !! "port" = Some (VInt 2121) /\
     kw !! "encrypt_data_channel" = Some (VBool false) /\
     FTP.session_of kw = plain_ftp_2121) /\
  (FTP.exists_ self (Toy.start Toy.world0)).1 = Ok true /\
  log (FTP.exists_ self (Toy.start Toy.world0)).2
    = [ @EConnect Toy.toy_env
          (VStr "ftp.example.org") VNone VNone plain_ftp_2121;
        @EExists Toy.toy_env 0%nat (Some "/data/a.txt");
        @EClose Toy.toy_env 0%nat ].
Proof.
  intros self plain_ftp_2121.
  split; [reflexivity|]. split; [reflexivity|]. split.
  - eexists. split; [reflexivity|]. by vm_compute.
  - split; vm_compute; reflexivity.
Qed.

(* ===================================================================== *)
(** ** Claims about [size]                                                *)
(* ===================================================================== *)

(** C6, as the claim has it, fails: [size] does not fall back to the
    local copy whenever the remote size cannot be had.  The address is
    well-formed and the local copy is there, its size, 1024, can be read;
    but the server cannot be reached, so [exists] raises the library's
    error when it connects, and [size] with it: the local size is never
    looked up. *)
Lemma size_raises_despite_local_copy_counterexample :
  let file := "ftp.example.org/data/zzz.txt" in
  let self := Toy.handle file in
  let w := Toy.with_local_copy file 1024 in
  let plain_ftp :=
    {| base_class := FTP; sf_port := VInt 21;
       sf_encrypt_data_channel := VBool false; debug_level := VNone |} in
  FTP._matched_address self
    = Some {| Re.group_host := "ftp.example.org"; Re.group_port := None;
              Re.group_path_remainder := "/data/zzz.txt" |} /\
  @iofile_size_local Toy.unreachable_env file w = (inl 1024%Z, w) /\
  @FTP.size Toy.unreachable_env self (@Build_state Toy.unreachable_env w [])
    = (Raise (LibError "FTPOSError"),
       @Build_state Toy.unreachable_env w
         [ @EConnect Toy.unreachable_env
             (VStr "ftp.example.org") VNone VNone plain_ftp ]).
Proof. vm_compute. repeat split. Qed.

(** C6, amended.  [size] first runs [exists].  When [exists] raises, as
    it does when the library fails to connect or to answer, and on a
    malformed address, [size] raises the same and does nothing more.  When [exists] answers true, [size] opens a connection, reads the
    remote size, closes and returns that size.  When [exists] answers
    false, [size] returns what the local size lookup returns instead of
    failing.  And [size] raises only in these cases: [exists] raised; the
    file is there and the connection, the remote read or the close failed;
    the file is not there and the local lookup failed. *)
Theorem size_remote_or_local {E : Env} (self : FTP.RemoteObject) (st : state) :
  (forall e st1,
     FTP.exists_ self st = (Raise e, st1) -> FTP.size self st = (Raise e, st1)) /\
  (FTP._matched_address self = None ->
   is_raise (FTP.size self st).1 = true /\ (FTP.size self st).2 = st) /\
  (forall kw st1 c w1 n w2 w3,
     FTP.kwargs_to_use self = Ok kw ->
     FTP.exists_ self st = (Ok true, st1) ->
     FTP.connect kw (world st1) = (inl c, w1) ->
     path_getsize c (FTP.remote_path self) w1 = (inl n, w2) ->
     conn_close c w2 = (inl tt, w3) ->
     FTP.size self st =
       (Ok n, {| world := w3;
                 log := log st1 ++ [ FTP.connect_event kw;
                                     EGetsize c (FTP.remote_path self);
                                     EClose c ] |})) /\
  (forall st1 n w,
     FTP.exists_ self st = (Ok false, st1) ->
     iofile_size_local (FTP._iofile_file self) (world st1) = (inl n, w) ->
     FTP.size self st
       = (Ok n, FTP.logged st1 (ESizeLocal (FTP._iofile_file self)) w)) /\
  (is_raise (FTP.size self st).1 = true ->
   is_raise (FTP.exists_ self st).1 = true \/
   (exists kw st1,
      FTP.kwargs_to_use self = Ok kw /\
      FTP.exists_ self st = (Ok true, st1) /\
      ((exists e w1, FTP.connect kw (world st1) = (inr e, w1)) \/
       (exists c w1 e w2,
          FTP.connect kw (world st1) = (inl c, w1) /\
          path_getsize c (FTP.remote_path self) w1 = (inr e, w2)) \/
       (exists c w1 n w2 e w3,
          FTP.connect kw (world st1) = (inl c, w1) /\
          path_getsize c (FTP.remote_path self) w1 = (inl n, w2) /\
          conn_close c w2 = (inr e, w3)))) \/
   (exists st1 e w,
      FTP.exists_ self st = (Ok false, st1) /\
      iofile_size_local (FTP._iofile_file self) (world st1) = (inr e, w))).
Proof.
  split; [|split; [|split; [|split]]].
  - intros e st1. apply size_exists_raises.
  - intros H. by rewrite (size_exists_raises _ _ _ _ (exists_malformed self st H)).
  - intros kw st1 c w1 n w2 w3 Hkw Hex Hc Hg Hcl.
    rewrite (size_present _ _ _ _ Hkw Hex).
    erewrite scoped_body_returns; [|exact Hc|rewrite call_run; simpl; by rewrite Hg].
    simpl. rewrite Hcl. unfold FTP.logged. simpl. by rewrite <- !List.app_assoc.
  - intros st1 n w Hex Hl. rewrite (size_absent _ _ _ Hex), call_run. by rewrite Hl.
  - destruct (FTP.exists_ self st) as [[[|]|e] st1] eqn:Hex.
    + (* the file is there *)
      intros Hr. right. left.
      destruct (exists_returns_kwargs _ _ _ _ Hex) as [kw Hkw].
      exists kw, st1. split; [done|]. split; [done|].
      rewrite (size_present _ _ _ _ Hkw Hex) in Hr.
      destruct (FTP.connect kw (world st1)) as [[c|e] w1] eqn:Hc; [|eauto].
      right.
      destruct (path_getsize c (FTP.remote_path self) w1) as [[n|e] w2] eqn:Hg;
        [|left; eauto 10].
      right.
      erewrite scoped_body_returns in Hr;
        [|exact Hc|rewrite call_run; simpl; by rewrite Hg].
      simpl in Hr.
      destruct (conn_close c w2) as [[[]|e] w3] eqn:Hcl; [discriminate Hr|].
      eauto 10.
    + (* the file is not there *)
      intros Hr. right. right.
      rewrite (size_absent _ _ _ Hex), call_run in Hr.
      destruct (iofile_size_local (FTP._iofile_file self) (world st1))
        as [[n|e] w] eqn:Hl; [discriminate Hr|].
      eauto.
    + intros _. by left.
Qed.

Lemma size_remote_or_local_witness :
  let file := "ftp.example.org/data/zzz.txt" in
  let w := Toy.with_local_copy file 1024 in
  (FTP.size (Toy.handle file) (Toy.start w)).1 = Ok 1024%Z.
Proof.
  intros file w.
  destruct (@size_remote_or_local Toy.toy_env (Toy.handle file) (Toy.start w))
    as (_ & _ & _ & Hlocal & _).
  erewrite Hlocal; [reflexivity | vm_compute; reflexivity | vm_compute; reflexivity].
Defined.

(* ===================================================================== *)
(** ** Claims about [list]                                                *)
(* ===================================================================== *)

Section ListFacts.
Import Re.

Lemma search_wildcard_first s i :
  search_wildcard s = Some i ->
  wildcard_at s i /\ forall j, (j < i)%nat -> ~ wildcard_at s j.
Proof.
  revert i. induction s as [|c s IH]; intros i; [done|].
  cbn [search_wildcard]. destruct s as [|c' s']; [done|].
  destruct (Ascii.eqb c "{" && negb (Ascii.eqb c' "{")) eqn:Hcc.
  - intros [= <-]. apply andb_prop in Hcc as [->%Ascii.eqb_eq Hc'].
    split; [|lia]. split; [done|]. exists c'. split; [done|].
    intros ->. by rewrite Ascii.eqb_refl in Hc'.
  - destruct (search_wildcard (String c' s')) as [i'|] eqn:Hs; [|done].
    intros [= <-]. destruct (IH i' eq_refl) as [[Hg (x & Hx & Hne)] Hmin].
    split; [split; [done|eauto]|].
    intros [|j] Hj.
    + intros [Hg0 (x0 & Hx0 & Hne0)]. simpl in Hg0, Hx0.
      injection Hg0 as ->. injection Hx0 as ->.
      simpl in Hcc. destruct (Ascii.eqb_spec x0 "{"); [done|discriminate Hcc].
    + intros [Hgj (xj & Hxj & Hnej)]. apply (Hmin j); [lia|].
      split; [done|eauto].
Qed.

Lemma walk_paths_elem entries raw :
  raw ∈ FTP.walk_paths entries <->
  exists e f,
    e ∈ entries /\ f ∈ (filenames e ++ dirnames e)%list /\
    raw = (if negb (String.eqb (dirpath e) ".")
           then Posixpath.join (dirpath e) f else f).
Proof.
  unfold FTP.walk_paths. rewrite list_elem_of_In, in_flat_map. split.
  - intros (e & He & Hin). apply in_map_iff in Hin as (f & <- & Hf).
    exists e, f. by rewrite !list_elem_of_In.
  - intros (e & f & He & Hf & ->). exists e.
    rewrite <- list_elem_of_In. split; [done|].
    apply in_map_iff. exists f. by rewrite <- list_elem_of_In.
Qed.

Lemma append_nonempty_r a b : b <> "" -> a +:+ b <> "".
Proof. destruct a; [done|]. by rewrite str_app_cons. Qed.

Lemma join_nonempty a b : b <> "" -> Posixpath.join a b <> "".
Proof.
  intros Hb. unfold Posixpath.join.
  destruct (String.prefix "/" b); [done|].
  destruct (_ || _); apply append_nonempty_r; [done|].
  by destruct b.
Qed.

Lemma walk_paths_nonempty entries :
  Forall (fun e => Forall (fun f => f <> "") (filenames e ++ dirnames e)%list) entries ->
  Forall (fun raw => raw <> "") (FTP.walk_paths entries).
Proof.
  intros Hall. apply Forall_forall. intros raw (e & f & He & Hf & ->)%walk_paths_elem.
  rewrite Forall_forall in Hall. specialize (Hall e He).
  rewrite Forall_forall in Hall. specialize (Hall f Hf).
  destruct (negb _); [by apply join_nonempty | done].
Qed.

(** The second comprehension, on paths none of which is empty: it does
    not raise, and strips one leading separator from each path. *)
Lemma comprehension_strip_sep l :
  Forall (fun raw => raw <> "") l ->
  exists l', FTP.comprehension FTP.strip_sep l = Ok l' /\
             Forall2 FTP.stripped l l'.
Proof.
  induction 1 as [|raw l Hraw _ (l' & Hl' & IH)]; simpl.
  - exists []. split; [done|constructor].
  - destruct raw as [|c rest]; [done|]. unfold FTP.strip_sep at 1.
    destruct (Ascii.eqb c "/") eqn:Hc; rewrite Hl'.
    + exists (rest :: l'). split; [done|]. constructor; [|done]. simpl. by rewrite Hc.
    + exists (String c rest :: l'). split; [done|]. constructor; [|done].
      simpl. by rewrite Hc.
Qed.

Lemma prefix_substring n s : String.prefix (substring 0 n s) s = true.
Proof.
  revert n. induction s as [|c s IH]; intros [|n]; simpl; try done.
  rewrite IH. by destruct (ascii_dec c c).
Qed.

Lemma prefix_rstrip c s : String.prefix (Posixpath.rstrip c s) s = true.
Proof.
  induction s as [|c' s IH]; simpl; [done|].
  destruct (_ && _); simpl; [done|].
  rewrite IH. by destruct (ascii_dec c' c').
Qed.

Lemma prefix_trans a b c :
  String.prefix a b = true -> String.prefix b c = true -> String.prefix a c = true.
Proof.
  revert b c. induction a as [|x a IH]; intros [|y b] [|z c]; simpl; try done.
  destruct (ascii_dec x y) as [->|]; [|done].
  destruct (ascii_dec y z) as [->|]; [|done].
  apply IH.
Qed.

(** [dirname] cuts its argument: the directory is a prefix of the path. *)
Lemma dirname_prefix p : String.prefix (Posixpath.dirname p) p = true.
Proof.
  unfold Posixpath.dirname.
  destruct (_ && _).
  - eapply prefix_trans; [apply prefix_rstrip | apply prefix_substring].
  - apply prefix_substring.
Qed.

End ListFacts.

(* ===================================================================== *)
(** ** What [download] does when the file is there                        *)
(* ===================================================================== *)

Section DownloadFacts.
Context {E : Env}.
Import FTP.

(** The destination directory is there: [makedirs] is not called, so a
    directory left by an earlier download cannot make this one fail. *)
Lemma download_keeps_existing_directory
      self make_dest_dirs kw st c w1 st2 w3 w4 w5 :
  kwargs_to_use self = Ok kw ->
  connect kw (world st) = (inl c, w1) ->
  exists_ self (logged st (connect_event kw) w1) = (Ok true, st2) ->
  os_path_exists (Posixpath.dirname (local_path self)) (world st2) = true ->
  synchronize_times c (world st2) = (inl tt, w3) ->
  conn_download c (remote_path self) (local_path self) w3 = (inl tt, w4) ->
  conn_close c w4 = (inl tt, w5) ->
  download self make_dest_dirs st =
  (Ok tt, {| world := w5;
             log := log st2 ++ [ ESync c;
                                 EDownload c (remote_path self) (local_path self);
                                 EClose c ] |}).
Proof.
  intros Hkw Hc Hex Hthere Hs Hd Hcl. rewrite (download_scoped _ _ _ _ Hkw).
  erewrite scoped_body_returns; [|exact Hc|].
  2:{ unfold bind at 1. rewrite Hex. cbv zeta.
      unfold bind, peek, ret. rewrite Hthere. simpl.
      rewrite call_run, Hs. unfold logged at 1. rewrite call_run. simpl.
      rewrite Hd. reflexivity. }
  simpl. rewrite Hcl. unfold logged. simpl. by rewrite <- !List.app_assoc.
Qed.

(** The destination directory is not there and [make_dest_dirs] is set:
    it is made first. *)
Lemma download_makes_missing_directory self kw st c w1 st2 w3 w4 w5 w6 :
  kwargs_to_use self = Ok kw ->
  connect kw (world st) = (inl c, w1) ->
  exists_ self (logged st (connect_event kw) w1) = (Ok true, st2) ->
  os_path_exists (Posixpath.dirname (local_path self)) (world st2) = false ->
  os_makedirs (Posixpath.dirname (local_path self)) (world st2) = (inl tt, w3) ->
  synchronize_times c w3 = (inl tt, w4) ->
  conn_download c (remote_path self) (local_path self) w4 = (inl tt, w5) ->
  conn_close c w5 = (inl tt, w6) ->
  download self true st =
  (Ok tt, {| world := w6;
             log := log st2 ++ [ EMakedirs (Posixpath.dirname (local_path self));
                                 ESync c;
                                 EDownload c (remote_path self) (local_path self);
                                 EClose c ] |}).
Proof.
  intros Hkw Hc Hex Hthere Hmk Hs Hd Hcl. rewrite (download_scoped _ _ _ _ Hkw).
  erewrite scoped_body_returns; [|exact Hc|].
  2:{ unfold bind at 1. rewrite Hex. cbv zeta.
      unfold bind, peek. rewrite Hthere. simpl.
      rewrite call_run, Hmk. unfold logged at 1.
      rewrite call_run. simpl. rewrite Hs. unfold logged at 1.
      rewrite call_run. simpl. rewrite Hd. reflexivity. }
  simpl. rewrite Hcl. unfold logged. simpl. by rewrite <- !List.app_assoc.
Qed.

End DownloadFacts.

(** In the small environment: two downloads of a file that does not change
    both succeed and leave the same bytes under the local path; the first
    makes the destination directory, the second finds it and does not. *)
Lemma download_twice_same_bytes :
  let self := Toy.handle "ftp.example.org/data/a.txt" in
  let first := FTP.download self true (Toy.start Toy.world0) in
  let second := FTP.download self true (Toy.start (world first.2)) in
  first.1 = Ok tt /\ second.1 = Ok tt /\
  Toy.assoc (FTP.local_path self) (Toy.local_files (world first.2)) = Some "alpha" /\
  Toy.assoc (FTP.local_path self) (Toy.local_files (world second.2)) = Some "alpha" /\
  Toy.local_dirs (world first.2) = ["ftp.example.org/data"] /\
  Toy.local_dirs (world second.2) = ["ftp.example.org/data"] /\
  Toy.open_conns (world second.2) = [].
Proof. vm_compute. repeat split. Qed.

(* ===================================================================== *)
(** ** What the operations call, and what they leave open                 *)
(* ===================================================================== *)

Section Footprints.
Context {E : Env}.
Import FTP.

Lemma calls_only_ret {A} ks (a : A) : calls_only ks (ret a).
Proof. intros st. exists []. simpl. by rewrite app_nil_r. Qed.

Lemma calls_only_raise {A} ks e : calls_only ks (@raise E A e).
Proof. intros st. exists []. simpl. by rewrite app_nil_r. Qed.

Lemma calls_only_lift {A} ks (r : res A) : calls_only ks (lift r).
Proof. intros st. exists []. simpl. by rewrite app_nil_r. Qed.

Lemma calls_only_peek {A} ks (f : World -> A) : calls_only ks (peek f).
Proof. intros st. exists []. simpl. by rewrite app_nil_r. Qed.

Lemma calls_only_raise_global {A} ks name : calls_only ks (@raise_global E A name).
Proof. unfold raise_global. case_bool_decide; apply calls_only_raise. Qed.

Lemma calls_only_call {A} ks ev (op : World -> outcome A * World) :
  kind_of ev ∈ ks -> calls_only ks (call ev op).
Proof.
  intros Hk st. exists [ev]. rewrite call_run.
  destruct (op (world st)) as [[a|e] w]; simpl; split; try done; by constructor.
Qed.

Lemma calls_only_bind {A B} ks (m : M A) (f : A -> M B) :
  calls_only ks m -> (forall a, calls_only ks (f a)) -> calls_only ks (bind m f).
Proof.
  intros Hm Hf st. destruct (Hm st) as (e1 & H1 & F1). unfold bind.
  destruct (m st) as [[a|e] st1]; simpl in *.
  - destruct (Hf a st1) as (e2 & H2 & F2). exists (e1 ++ e2)%list.
    rewrite H2, H1, List.app_assoc. split; [done|]. by apply Forall_app.
  - by exists e1.
Qed.

Lemma calls_only_ftpc {A} ks self (body : Conn -> M A) :
  KConnect ∈ ks -> KClose ∈ ks ->
  (forall c, calls_only ks (body c)) -> calls_only ks (ftpc self body).
Proof.
  intros Hc Hcl Hb. unfold ftpc. cbv zeta.
  repeat (apply calls_only_bind; [apply calls_only_lift|intros ?]).
  apply calls_only_bind; [by apply calls_only_call|intros c].
  apply calls_only_bind; [apply Hb|intros r].
  apply calls_only_bind; [by apply calls_only_call|intros _].
  apply calls_only_ret.
Qed.

Lemma calls_only_weaken {A} ks ks' (m : M A) :
  (forall k, k ∈ ks -> k ∈ ks') -> calls_only ks m -> calls_only ks' m.
Proof.
  intros Hsub Hm st. destruct (Hm st) as (evs & H & F). exists evs. split; [done|].
  eapply Forall_impl; [exact F|]. intros ev. apply Hsub.
Qed.

Lemma calls_only_exists ks self :
  KConnect ∈ ks -> KExists ∈ ks -> KClose ∈ ks -> calls_only ks (exists_ self).
Proof.
  intros H1 H2 H3. unfold exists_. destruct (_matched_address self).
  - apply calls_only_ftpc; try done. intros c. by apply calls_only_call.
  - apply calls_only_raise_global.
Qed.

Lemma opened_app (a b : list event) : opened (a ++ b) = (opened a + opened b)%nat.
Proof. induction a as [|[] a IH]; simpl; lia. Qed.

Lemma closed_app (a b : list event) : closed (a ++ b) = (closed a + closed b)%nat.
Proof. induction a as [|[] a IH]; simpl; lia. Qed.

Lemma nets_ret {A} (a : A) : nets (ret a) 0.
Proof. intros st r st' [= <- <-]. exists []. by rewrite app_nil_r. Qed.

Lemma nets_raise {A} e d : nets (@raise E A e) d.
Proof. intros st r st' [=]. Qed.

Lemma nets_raise_global {A} name d : nets (@raise_global E A name) d.
Proof. unfold raise_global. case_bool_decide; apply nets_raise. Qed.

Lemma nets_lift {A} (x : res A) : nets (lift x) 0.
Proof. intros st r st' [= -> <-]. exists []. by rewrite app_nil_r. Qed.

Lemma nets_peek {A} (f : World -> A) : nets (peek f) 0.
Proof. intros st r st' [= <- <-]. exists []. by rewrite app_nil_r. Qed.

Lemma nets_call {A} ev (op : World -> outcome A * World) :
  nets (call ev op) (Z.of_nat (opened [ev]) - Z.of_nat (closed [ev])).
Proof.
  intros st r st'. rewrite call_run.
  destruct (op (world st)) as [[a|e] w]; intros [= <- <-]. by exists [ev].
Qed.

Lemma nets_bind {A B} (m : M A) (f : A -> M B) d1 d2 d :
  nets m d1 -> (forall a, nets (f a) d2) -> d = (d1 + d2)%Z -> nets (bind m f) d.
Proof.
  intros Hm Hf -> st r st'. unfold bind.
  destruct (m st) as [[a|e] st1] eqn:Hr; [|done].
  intros Hfa. destruct (Hm _ _ _ Hr) as (e1 & H1 & D1).
  destruct (Hf a _ _ _ Hfa) as (e2 & H2 & D2).
  exists (e1 ++ e2)%list. rewrite H2, H1, List.app_assoc. split; [done|].
  rewrite opened_app, closed_app. lia.
Qed.

(** A block that closes what it opens, run under [ftpc], gives an
    operation that closes what it opens. *)
Lemma nets_ftpc {A} self (body : Conn -> M A) :
  (forall c, nets (body c) 0) -> nets (ftpc self body) 0.
Proof.
  intros Hb. unfold ftpc. cbv zeta.
  repeat (eapply nets_bind; [apply nets_lift|intros ?|reflexivity]).
  eapply nets_bind; [apply nets_call|intros c|].
  2:{ simpl. instantiate (1 := (-1)%Z). reflexivity. }
  eapply nets_bind; [apply Hb|intros r|reflexivity].
  eapply nets_bind; [apply nets_call|intros _; apply nets_ret|reflexivity].
Qed.

Lemma nets_exists self : nets (exists_ self) 0.
Proof.
  unfold exists_. destruct (_matched_address self).
  - apply nets_ftpc. intros c. apply (nets_call (EExists c (remote_path self))).
  - apply nets_raise_global.
Qed.

End Footprints.

(** X1.  However they end, the four query operations only append to the
    log, and never transfer or create anything: [exists] only connects,
    asks for existence and closes; [mtime] adds the clock synchronisation
    and the time read; [size] adds the remote and the local size reads;
    [list] only connects, walks and closes. *)
Theorem query_operations_call_only {E : Env} (self : FTP.RemoteObject) :
  calls_only [KConnect; KExists; KClose] (FTP.exists_ self) /\
  calls_only [KConnect; KExists; KClose; KSync; KGetmtime] (FTP.mtime self) /\
  calls_only [KConnect; KExists; KClose; KGetsize; KSizeLocal] (FTP.size self) /\
  calls_only [KConnect; KWalk; KClose] (FTP.list_ self).
Proof.
  split; [|split; [|split]].
  - apply calls_only_exists; in_kinds.
  - unfold FTP.mtime. apply calls_only_bind; [apply calls_only_exists; in_kinds|].
    intros [|]; [|apply calls_only_raise_global].
    apply calls_only_ftpc; [in_kinds|in_kinds|]. intros c.
    apply calls_only_bind; [apply calls_only_call; in_kinds|intros _].
    apply calls_only_call; in_kinds.
  - unfold FTP.size. apply calls_only_bind; [apply calls_only_exists; in_kinds|].
    intros [|]; [|apply calls_only_call; in_kinds].
    apply calls_only_ftpc; [in_kinds|in_kinds|]. intros c.
    apply calls_only_call; in_kinds.
  - unfold FTP.list_. destruct (FTP.remote_path self); [|apply calls_only_raise].
    apply calls_only_ftpc; [in_kinds|in_kinds|]. intros c.
    apply calls_only_bind; [apply calls_only_call; in_kinds|intros entries].
    apply calls_only_lift.
Qed.

(** X2.  However they end, the two transfers only append to the log:
    [upload] only connects, synchronises, uploads and closes, so it never
    asks whether the remote or the local file exists; [download] never
    uploads, and with [make_dest_dirs] false it never makes a directory. *)
Theorem transfer_operations_call_only {E : Env} (self : FTP.RemoteObject) :
  calls_only [KConnect; KSync; KUpload; KClose] (FTP.upload self) /\
  (forall make_dest_dirs,
     calls_only [KConnect; KExists; KClose; KMakedirs; KSync; KDownload]
                (FTP.download self make_dest_dirs)) /\
  calls_only [KConnect; KExists; KClose; KSync; KDownload] (FTP.download self false).
Proof.
  split; [|split].
  - unfold FTP.upload. apply calls_only_ftpc; [in_kinds|in_kinds|]. intros c.
    apply calls_only_bind; [apply calls_only_call; in_kinds|intros _].
    apply calls_only_call; in_kinds.
  - intros mk. unfold FTP.download. apply calls_only_ftpc; [in_kinds|in_kinds|].
    intros c. apply calls_only_bind; [apply calls_only_exists; in_kinds|].
    intros [|]; [|apply calls_only_raise_global]. cbv zeta.
    apply calls_only_bind; [apply calls_only_peek|intros there].
    apply calls_only_bind.
    { destruct (negb there && mk); [apply calls_only_call; in_kinds|apply calls_only_ret]. }
    intros _. apply calls_only_bind; [apply calls_only_call; in_kinds|intros _].
    apply calls_only_call; in_kinds.
  - unfold FTP.download. apply calls_only_ftpc; [in_kinds|in_kinds|].
    intros c. apply calls_only_bind; [apply calls_only_exists; in_kinds|].
    intros [|]; [|apply calls_only_raise_global]. cbv zeta.
    apply calls_only_bind; [apply calls_only_peek|intros there].
    apply calls_only_bind.
    { rewrite andb_false_r. apply calls_only_ret. }
    intros _. apply calls_only_bind; [apply calls_only_call; in_kinds|intros _].
    apply calls_only_call; in_kinds.
Qed.

(** X3.  Whenever one of the six operations returns, it has closed as
    many connections as it opened: a connection can only be left open by an
    operation that raises. *)
Theorem operations_that_return_close_their_connections {E : Env}
        (self : FTP.RemoteObject) :
  nets (FTP.exists_ self) 0 /\
  nets (FTP.mtime self) 0 /\
  nets (FTP.size self) 0 /\
  (forall make_dest_dirs, nets (FTP.download self make_dest_dirs) 0) /\
  nets (FTP.upload self) 0 /\
  nets (FTP.list_ self) 0.
Proof.
  split; [|split; [|split; [|split; [|split]]]].
  - apply nets_exists.
  - unfold FTP.mtime. eapply nets_bind; [apply nets_exists| |reflexivity].
    intros [|]; [|apply nets_raise_global].
    apply nets_ftpc. intros c.
    eapply nets_bind;
      [apply (nets_call (ESync c))|intros _; apply (nets_call (EGetmtime c _))|reflexivity].
  - unfold FTP.size. eapply nets_bind; [apply nets_exists| |reflexivity].
    intros [|]; [|apply (nets_call (ESizeLocal _))].
    apply nets_ftpc. intros c. apply (nets_call (EGetsize c _)).
  - intros mk. unfold FTP.download. apply nets_ftpc. intros c.
    eapply nets_bind; [apply nets_exists| |reflexivity].
    intros [|]; [|apply nets_raise_global]. cbv zeta.
    eapply nets_bind; [apply nets_peek|intros there|reflexivity].
    eapply (nets_bind _ _ 0 0); [|intros _|reflexivity].
    { destruct (negb there && mk); [apply (nets_call (EMakedirs _))|apply nets_ret]. }
    eapply nets_bind;
      [apply (nets_call (ESync c))|intros _; apply (nets_call (EDownload c _ _))|reflexivity].
  - unfold FTP.upload. apply nets_ftpc. intros c.
    eapply nets_bind;
      [apply (nets_call (ESync c))|intros _; apply (nets_call (EUpload c _ _))|reflexivity].
  - unfold FTP.list_. destruct (FTP.remote_path self); [|apply nets_raise].
    apply nets_ftpc. intros c.
    eapply nets_bind;
      [apply (nets_call (EWalk c _))|intros entries; apply nets_lift|reflexivity].
Qed.

(* ===================================================================== *)
(** ** Runs of the operations, call by call                               *)
(* ===================================================================== *)

Section Runs.
Context {E : Env}.
Import FTP.

Lemma kwargs_to_use_matched self kw :
  kwargs_to_use self = Ok kw -> exists m, _matched_address self = Some m.
Proof.
  intros Hkw. destruct (_matched_address self) as [m|] eqn:Hm; [eauto|].
  rewrite (kwargs_to_use_malformed _ Hm) in Hkw. discriminate Hkw.
Qed.

Lemma exists_returns self kw st c w1 b w2 w3 :
  kwargs_to_use self = Ok kw ->
  connect kw (world st) = (inl c, w1) ->
  path_exists c (remote_path self) w1 = (inl b, w2) ->
  conn_close c w2 = (inl tt, w3) ->
  exists_ self st =
  (Ok b, {| world := w3;
            log := log st ++ [connect_event kw; EExists c (remote_path self); EClose c] |}).
Proof.
  intros Hkw Hc Hq Hcl. destruct (kwargs_to_use_matched _ _ Hkw) as [m Hm].
  rewrite (exists_wellformed _ _ _ _ Hm Hkw).
  erewrite scoped_body_returns; [|exact Hc|rewrite call_run; simpl; by rewrite Hq].
  simpl. rewrite Hcl. unfold logged. simpl. by rewrite <- !List.app_assoc.
Qed.

End Runs.

(** X4.  On an address the pattern matches, whose port, if it names one,
    has no more digits than [int] converts, [ftpc] raises nothing of its
    own and attempts exactly one connection.  If the connection fails, the
    library's error comes out and the block is not run.  If the block
    raises, its exception comes out and [close] is not called.  If the
    block returns, [close] is called once, and a failing [close] replaces
    the value of the block by its error.  On a longer port [ftpc] raises
    the [ValueError] of [int], and attempts no connection. *)
Theorem ftpc_outcomes {E : Env} {A : Type}
        (self : FTP.RemoteObject) (m : Re.address_match)
        (body : Conn -> M A) (st : state) :
  FTP._matched_address self = Some m ->
  if port_in_limit m then
    exists kw,
      FTP.kwargs_to_use self = Ok kw /\
      match FTP.connect kw (world st) with
      | (inr e, w) =>
          FTP.ftpc self body st
          = (Raise (LibError e), FTP.logged st (FTP.connect_event kw) w)
      | (inl c, w) =>
          match body c (FTP.logged st (FTP.connect_event kw) w) with
          | (Raise e, st') => FTP.ftpc self body st = (Raise e, st')
          | (Ok r, st') =>
              match conn_close c (world st') with
              | (inl _, w') =>
                  FTP.ftpc self body st = (Ok r, FTP.logged st' (EClose c) w')
              | (inr e, w') =>
                  FTP.ftpc self body st
                  = (Raise (LibError e), FTP.logged st' (EClose c) w')
              end
          end
      end
  else FTP.ftpc self body st = (Raise ValueError, st).
Proof.
  intros Hm. destruct (port_in_limit m) eqn:Hlim.
  2:{ apply ftpc_raise. by eapply kwargs_to_use_too_long. }
  destruct (kwargs_to_use_wellformed _ _ Hm Hlim) as [kw Hkw].
  exists kw. split; [done|]. rewrite (ftpc_scoped _ _ _ _ Hkw).
  destruct (FTP.connect kw (world st)) as [[c|e] w] eqn:Hc.
  2:{ by apply scoped_connect_fails. }
  destruct (body c (FTP.logged st (FTP.connect_event kw) w)) as [[r|e] st'] eqn:Hb.
  2:{ by eapply scoped_body_raises. }
  rewrite (scoped_body_returns _ _ _ _ _ _ _ Hc Hb).
  by destruct (conn_close c (world st')) as [[[]|e] w'].
Qed.

Lemma ftpc_outcomes_witness :
  let self := Toy.handle "ftp.example.org/data/a.txt" in
  let body := fun c : @Conn Toy.toy_env => @raise Toy.toy_env Z ValueError in
  FTP._matched_address self
  = Some {| Re.group_host := "ftp.example.org"; Re.group_port := None;
            Re.group_path_remainder := "/data/a.txt" |} /\
  exists kw,
    FTP.kwargs_to_use self = Ok kw /\
    match @FTP.connect Toy.toy_env kw Toy.world0 with
    | (inr e, w) => True
    | (inl c, w) =>
        @FTP.ftpc Toy.toy_env Z self body (Toy.start Toy.world0)
        = (Raise ValueError, FTP.logged (Toy.start Toy.world0) (FTP.connect_event kw) w)
    end.
Proof.
  intros self body. split; [reflexivity|].
  pose proof (@ftpc_outcomes Toy.toy_env Z self _ body (Toy.start Toy.world0) eq_refl)
    as Hall.
  destruct Hall as (kw & Hkw & Hout).
  exists kw. split; [exact Hkw|].
  change (world (Toy.start Toy.world0)) with Toy.world0 in Hout.
  destruct (@FTP.connect Toy.toy_env kw Toy.world0) as [[c|e] w]; [exact Hout|exact I].
Defined.

(** X5.  On an address the pattern does not match, no operation reaches
    the environment, but they do not fail alike: [exists], [mtime] and
    [size] raise [NameError] (the misnamed exception class), [download]
    and [upload] raise the [AttributeError] of [port], and [list] the
    [TypeError] of [normpath]. *)
Theorem unmatched_address_errors {E : Env} (self : FTP.RemoteObject) (st : state) :
  FTP._matched_address self = None ->
  FTP.exists_ self st = (Raise (NameError "SFTPFileException"), st) /\
  FTP.mtime self st = (Raise (NameError "SFTPFileException"), st) /\
  FTP.size self st = (Raise (NameError "SFTPFileException"), st) /\
  (forall make_dest_dirs,
     FTP.download self make_dest_dirs st
     = (Raise (AttributeError "'NoneType' object has no attribute 'group'"), st)) /\
  FTP.upload self st
    = (Raise (AttributeError "'NoneType' object has no attribute 'group'"), st) /\
  FTP.list_ self st = (Raise TypeError, st).
Proof.
  intros H. pose proof (exists_malformed self st H) as Hex.
  split; [done|]. split; [unfold FTP.mtime, bind; by rewrite Hex|].
  split; [by apply size_exists_raises|].
  split; [intros mk; unfold FTP.download; by apply ftpc_malformed|].
  split; [unfold FTP.upload; by apply ftpc_malformed|].
  unfold FTP.list_, FTP.remote_path, FTP.path_remainder. by rewrite H.
Qed.

Lemma unmatched_address_errors_witness :
  FTP._matched_address (Toy.handle "/no/host") = None /\
  FTP.upload (Toy.handle "/no/host") (Toy.start Toy.world0)
  = (Raise (AttributeError "'NoneType' object has no attribute 'group'"),
     Toy.start Toy.world0) /\
  FTP.list_ (Toy.handle "/no/host") (Toy.start Toy.world0)
  = (Raise TypeError, Toy.start Toy.world0).
Proof.
  split; [reflexivity|].
  destruct (@unmatched_address_errors Toy.toy_env (Toy.handle "/no/host")
              (Toy.start Toy.world0) eq_refl) as (_ & _ & _ & _ & Hu & Hl).
  split; [exact Hu | exact Hl].
Defined.

(** X6.  [upload] does not ask whether anything exists: it connects,
    synchronises the clocks, then sends the local path to the remote path
    and closes.  When the synchronisation fails, nothing is sent, the
    library's error comes out, and the connection is left open. *)
Theorem upload_synchronises_then_sends {E : Env}
        (self : FTP.RemoteObject) (st : state)
        (kw : gmap string pyval) (c : Conn) (w1 : World) :
  FTP.kwargs_to_use self = Ok kw ->
  FTP.connect kw (world st) = (inl c, w1) ->
  (forall w2 w3 w4,
     synchronize_times c w1 = (inl tt, w2) ->
     conn_upload c (FTP.local_path self) (FTP.remote_path self) w2 = (inl tt, w3) ->
     conn_close c w3 = (inl tt, w4) ->
     FTP.upload self st =
     (Ok tt, {| world := w4;
                log := log st ++ [ FTP.connect_event kw; ESync c;
                                   EUpload c (FTP.local_path self) (FTP.remote_path self);
                                   EClose c ] |})) /\
  (forall e w2,
     synchronize_times c w1 = (inr e, w2) ->
     FTP.upload self st =
     (Raise (LibError e),
      {| world := w2; log := log st ++ [ FTP.connect_event kw; ESync c ] |})).
Proof.
  intros Hkw Hc. unfold FTP.upload. split.
  - intros w2 w3 w4 Hs Hu Hcl. rewrite (ftpc_scoped _ _ _ _ Hkw).
    erewrite scoped_body_returns; [|exact Hc|].
    2:{ unfold bind. rewrite call_run. simpl. rewrite Hs.
        rewrite call_run. simpl. rewrite Hu. reflexivity. }
    simpl. rewrite Hcl. unfold FTP.logged. simpl. by rewrite <- !List.app_assoc.
  - intros e w2 Hs. rewrite (ftpc_scoped _ _ _ _ Hkw).
    erewrite scoped_body_raises; [|exact Hc|].
    2:{ unfold bind. rewrite call_run. simpl. rewrite Hs. reflexivity. }
    unfold FTP.logged. simpl. by rewrite <- !List.app_assoc.
Qed.

Lemma upload_synchronises_then_sends_witness :
  let file := "ftp.example.org/data/new.txt" in
  let self := Toy.handle file in
  let out := FTP.upload self (Toy.start (Toy.with_local_copy file 3)) in
  out.1 = Ok tt /\
  Toy.assoc "/data/new.txt" (Toy.server_files (world out.2))
  = Some {| Toy.r_mtime := 0; Toy.r_content := "xxx" |}.
Proof.
  intros file self out.
  pose (kw := FTP.update_items
                (FTP.update_items (FTP.defaults self 21)
                                  (FTP.provider_kwargs (FTP.provider self)))
                (FTP.kwargs self)).
  pose (w1 := (Toy.toy_FTPHost (VStr "ftp.example.org") VNone VNone
                 (FTP.session_of kw) (Toy.with_local_copy file 3)).2).
  destruct (@upload_synchronises_then_sends Toy.toy_env self
              (Toy.start (Toy.with_local_copy file 3)) kw 0%nat w1)
    as [Hok _].
  - reflexivity.
  - vm_compute. reflexivity.
  - unfold out.
    rewrite (Hok w1 (Toy.toy_upload 0 file (Some "/data/new.txt") w1).2
                 (Toy.toy_close 0 (Toy.toy_upload 0 file (Some "/data/new.txt") w1).2).2)
      by (vm_compute; reflexivity).
    split; vm_compute; reflexivity.
Defined.

(** X7.  [download] of a file that is there, into a directory that is
    not: the connection of [download] is opened first and stays open while
    [exists] opens, uses and closes a second one; then the directory is
    made, the clocks are synchronised and the file is fetched, all on the
    first connection, which is closed last. *)
Theorem download_holds_two_connections {E : Env}
        (self : FTP.RemoteObject) (st : state) (kw : gmap string pyval)
        (c0 c1 : Conn) (w1 w2 w3 w4 w5 w6 w7 w8 : World) :
  let dest := Posixpath.dirname (FTP.local_path self) in
  FTP.kwargs_to_use self = Ok kw ->
  FTP.connect kw (world st) = (inl c0, w1) ->
  FTP.connect kw w1 = (inl c1, w2) ->
  path_exists c1 (FTP.remote_path self) w2 = (inl true, w3) ->
  conn_close c1 w3 = (inl tt, w4) ->
  os_path_exists dest w4 = false ->
  os_makedirs dest w4 = (inl tt, w5) ->
  synchronize_times c0 w5 = (inl tt, w6) ->
  conn_download c0 (FTP.remote_path self) (FTP.local_path self) w6 = (inl tt, w7) ->
  conn_close c0 w7 = (inl tt, w8) ->
  FTP.download self true st =
  (Ok tt,
   {| world := w8;
      log := log st ++
             [ FTP.connect_event kw; FTP.connect_event kw;
               EExists c1 (FTP.remote_path self); EClose c1;
               EMakedirs dest; ESync c0;
               EDownload c0 (FTP.remote_path self) (FTP.local_path self);
               EClose c0 ] |}).
Proof.
  intros dest Hkw Hc0 Hc1 Hq Hcl1 Hthere Hmk Hs Hd Hcl0.
  pose proof (exists_returns self kw (FTP.logged st (FTP.connect_event kw) w1)
                c1 w2 true w3 w4 Hkw Hc1 Hq Hcl1) as Hex.
  rewrite (download_makes_missing_directory self kw st c0 w1 _ w5 w6 w7 w8
             Hkw Hc0 Hex Hthere Hmk Hs Hd Hcl0).
  simpl. by rewrite <- !List.app_assoc.
Qed.

Lemma download_holds_two_connections_witness :
  let self := Toy.handle "ftp.example.org/data/a.txt" in
  let out := FTP.download self true (Toy.start Toy.world0) in
  out.1 = Ok tt /\
  map kind_of (log out.2)
  = [KConnect; KConnect; KExists; KClose; KMakedirs; KSync; KDownload; KClose].
Proof.
  intros self out.
  pose (kw := FTP.update_items
                (FTP.update_items (FTP.defaults self 21)
                                  (FTP.provider_kwargs (FTP.provider self)))
                (FTP.kwargs self)).
  pose (w1 := (@FTP.connect Toy.toy_env kw Toy.world0).2).
  pose (w2 := (@FTP.connect Toy.toy_env kw w1).2).
  pose (w4 := (Toy.toy_close 1 w2).2).
  pose (w5 := (Toy.toy_makedirs "ftp.example.org/data" w4).2).
  pose (w7 := (Toy.toy_download 0 (Some "/data/a.txt") "ftp.example.org/data/a.txt" w5).2).
  pose (w8 := (Toy.toy_close 0 w7).2).
  unfold out.
  rewrite (@download_holds_two_connections Toy.toy_env self (Toy.start Toy.world0) kw
             0%nat 1%nat w1 w2 w2 w4 w5 w5 w7 w8)
    by (vm_compute; reflexivity).
  split; reflexivity.
Defined.

(** X8.  [mtime] of a file that is there uses two connections, one after
    the other: [exists] opens, asks and closes; then [mtime] opens again,
    synchronises the clocks, reads the time and closes. *)
Theorem mtime_uses_two_connections_in_turn {E : Env}
        (self : FTP.RemoteObject) (st : state) (kw : gmap string pyval)
        (c1 c2 : Conn) (t : Time) (w1 w2 w3 w4 w5 w6 w7 : World) :
  FTP.kwargs_to_use self = Ok kw ->
  FTP.connect kw (world st) = (inl c1, w1) ->
  path_exists c1 (FTP.remote_path self) w1 = (inl true, w2) ->
  conn_close c1 w2 = (inl tt, w3) ->
  FTP.connect kw w3 = (inl c2, w4) ->
  synchronize_times c2 w4 = (inl tt, w5) ->
  path_getmtime c2 (FTP.remote_path self) w5 = (inl t, w6) ->
  conn_close c2 w6 = (inl tt, w7) ->
  FTP.mtime self st =
  (Ok t,
   {| world := w7;
      log := log st ++
             [ FTP.connect_event kw; EExists c1 (FTP.remote_path self); EClose c1;
               FTP.connect_event kw; ESync c2;
               EGetmtime c2 (FTP.remote_path self); EClose c2 ] |}).
Proof.
  intros Hkw Hc1 Hq Hcl1 Hc2 Hs Hg Hcl2.
  pose proof (exists_returns self kw st c1 w1 true w2 w3 Hkw Hc1 Hq Hcl1) as Hex.
  rewrite (mtime_sync_then_read self kw st _ c2 w4 w5 t w6 w7 Hkw Hex Hc2 Hs Hg Hcl2).
  simpl. by rewrite <- !List.app_assoc.
Qed.

Lemma mtime_uses_two_connections_in_turn_witness :
  let self := Toy.handle "ftp.example.org/data/b.txt" in
  (FTP.mtime self (Toy.start Toy.world0)).1 = Ok 2000%Z /\
  map kind_of (log (FTP.mtime self (Toy.start Toy.world0)).2)
  = [KConnect; KExists; KClose; KConnect; KSync; KGetmtime; KClose].
Proof.
  intros self.
  pose (kw := FTP.update_items
                (FTP.update_items (FTP.defaults self 21)
                                  (FTP.provider_kwargs (FTP.provider self)))
                (FTP.kwargs self)).
  pose (w1 := (@FTP.connect Toy.toy_env kw Toy.world0).2).
  pose (w3 := (Toy.toy_close 0 w1).2).
  pose (w4 := (@FTP.connect Toy.toy_env kw w3).2).
  pose (w7 := (Toy.toy_close 1 w4).2).
  rewrite (@mtime_uses_two_connections_in_turn Toy.toy_env self (Toy.start Toy.world0) kw
             0%nat 1%nat 2000%Z w1 w1 w3 w4 w4 w4 w7)
    by (vm_compute; reflexivity).
  split; reflexivity.
Defined.

(* ===================================================================== *)
(** ** More on the address and its properties                             *)
(* ===================================================================== *)

Section MoreAddressFacts.
Import Re.

Lemma all_in_app cls a b : all_in cls (a +:+ b) = all_in cls a && all_in cls b.
Proof.
  induction a as [|c a IH]; [done|]. rewrite str_app_cons. simpl.
  by rewrite IH, andb_assoc.
Qed.

Lemma matched_text_dot m :
  all_in host_class (group_host m) = true ->
  (forall d, group_port m = Some d -> all_in digit_class d = true) ->
  all_in dot_class (group_path_remainder m) = true ->
  all_in dot_class (matched_text m) = true.
Proof.
  intros Hh Hp Hr. unfold matched_text. rewrite !all_in_app, Hr, andb_true_r.
  rewrite (all_in_impl host_class dot_class _ host_class_dot Hh). simpl.
  destruct (group_port m) as [d|]; [|done]. simpl.
  apply (all_in_impl digit_class); [apply digit_class_dot|]. by apply Hp.
Qed.

Lemma tail_ok_final_newline : tail_ok (String "010" "") = true.
Proof. reflexivity. Qed.

End MoreAddressFacts.

(** X9.  The address pattern accepts exactly the strings that start with
    a character of [[A-Za-z0-9-.]] and have no newline, except that one
    newline may end the string. *)
Theorem address_accepted_iff (s : string) :
  is_Some (Re.search_address s) <->
  exists c body,
    Re.host_class c = true /\
    Re.all_in Re.dot_class body = true /\
    (s = String c body \/ s = String c body +:+ String "010" "").
Proof.
  rewrite search_address_greedy. split.
  - intros [m Hm].
    pose proof (greedy_address_inv _ _ Hm) as (Hh & Hne & Hhall & Hp & Hrall & _ & Htext).
    assert (Hdot : Re.all_in Re.dot_class (Re.matched_text m) = true).
    { apply matched_text_dot; try done.
      intros d Hd. rewrite Hd in Hp. symmetry in Hp.
      by apply port_span_digits in Hp as [_ ?]. }
    unfold Re.matched_text in *.
    destruct (Re.group_host m) as [|c h]; [done|].
    rewrite str_app_cons in *. simpl in Hdot, Hhall.
    apply andb_prop in Hdot as [_ Hbody]. apply andb_prop in Hhall as [Hc _].
    eauto.
  - intros (c & body & Hc & Hbody & Hs).
    assert (Hok : Re.tail_ok s = true).
    { assert (Hall : Re.all_in Re.dot_class (String c body) = true).
      { simpl. by rewrite (host_class_dot _ Hc), Hbody. }
      destruct Hs as [-> | ->].
      - rewrite <- (str_app_nil_r (String c body)). by rewrite tail_ok_app.
      - by rewrite tail_ok_app. }
    unfold Re.greedy_address.
    pose proof (span_app Re.host_class s) as Happ.
    pose proof (span_all_in Re.host_class s) as Hall.
    assert (Hfst : (Re.span Re.host_class s).1 <> "").
    { destruct Hs as [-> | ->]; rewrite ?str_app_cons; simpl; by rewrite Hc. }
    destruct (Re.span Re.host_class s) as [h s1]. simpl in *.
    destruct h as [|c0 h]; [done|].
    pose proof (port_span_tail_ok s1) as Hptail.
    destruct (Re.port_span s1) as [p s2]. simpl in Hptail.
    rewrite <- Happ, tail_ok_app in Hok
      by (apply (all_in_impl Re.host_class); [apply host_class_dot|done]).
    rewrite <- Hptail in Hok. unfold Re.tail_ok in Hok.
    destruct (Re.span Re.dot_class s2) as [r s3]. simpl in Hok. rewrite Hok. eauto.
Qed.

(** X10.  A colon after the host that no digit follows is not a port
    separator: the port is 21 and the colon is the first character of the
    remote path. *)
Theorem colon_without_digits_stays_in_path
        (self : FTP.RemoteObject) (h rest : string) :
  h <> "" ->
  Re.all_in Re.host_class h = true ->
  Re.stops Re.digit_class rest ->
  Re.all_in Re.dot_class rest = true ->
  FTP._iofile_file self = h +:+ String ":" rest ->
  FTP.host self = Some h /\
  FTP.port self = Ok 21%Z /\
  FTP.remote_path self = Some (String ":" rest).
Proof.
  intros Hne Hh Hst Hdot Hfile.
  assert (Hm : FTP._matched_address self
               = Some {| Re.group_host := h; Re.group_port := None;
                         Re.group_path_remainder := String ":" rest |}).
  { rewrite matched_greedy, Hfile. unfold Re.greedy_address.
    rewrite (span_unique Re.host_class h _ Hh) by done.
    destruct h as [|c h]; [done|].
    unfold Re.port_span. simpl Ascii.eqb. cbv iota.
    assert (Hd : Re.span Re.digit_class rest = ("", rest)).
    { rewrite <- (str_app_nil rest) at 1. by apply span_unique. }
    assert (Hp : Re.span Re.dot_class (String ":" rest) = (String ":" rest, "")).
    { rewrite <- (str_app_nil_r (String ":" rest)) at 1. by apply span_unique. }
    rewrite Hd. cbv iota beta. rewrite Hp. done. }
  unfold FTP.host, FTP.port, FTP.remote_path, FTP.path_remainder.
  by rewrite Hm.
Qed.

Lemma colon_without_digits_stays_in_path_witness :
  let self := Toy.handle "ftp.example.org:/data/a.txt" in
  FTP.host self = Some "ftp.example.org" /\
  FTP.port self = Ok 21%Z /\
  FTP.remote_path self = Some ":/data/a.txt".
Proof.
  intros self.
  apply (colon_without_digits_stays_in_path self "ftp.example.org" "/data/a.txt");
    [discriminate | reflexivity | reflexivity | reflexivity | reflexivity].
Defined.

(** X11.  [protocol] never returns a protocol: the pattern has no group
    of that name, so on every address the pattern matches the property
    raises [IndexError], and on every other address it returns [None];
    [name] is the remote path. *)
Theorem protocol_never_returns_a_value (self : FTP.RemoteObject) :
  (forall s, FTP.protocol self <> Ok (Some s)) /\
  (FTP.protocol self = Raise IndexError <-> is_Some (FTP._matched_address self)) /\
  (FTP.protocol self = Ok None <-> FTP._matched_address self = None) /\
  FTP.name self = FTP.remote_path self.
Proof.
  unfold FTP.protocol.
  destruct (FTP._matched_address self) as [m|]; simpl;
    (split; [intros s; discriminate|]); (split; [|split; [|done]]); split;
    try done; try discriminate; eauto; by intros [? [=]].
Qed.

(* ===================================================================== *)
(** ** More on [list]                                                     *)
(* ===================================================================== *)

Section MoreListFacts.
Context {E : Env}.
Import Re.

Lemma search_wildcard_none s :
  search_wildcard s = None -> forall i, ~ wildcard_at s i.
Proof.
  induction s as [|c s IH]; intros Hs i [Hg (x & Hx & Hne)]; [by destruct i|].
  cbn [search_wildcard] in Hs. destruct s as [|c' s'].
  { destruct i as [|[|i]]; simpl in Hx; discriminate Hx. }
  destruct (Ascii.eqb c "{" && negb (Ascii.eqb c' "{")) eqn:Hcc; [done|].
  destruct (search_wildcard (String c' s')) eqn:Hs'; [done|].
  destruct i as [|i].
  - simpl in Hg, Hx. injection Hg as ->. injection Hx as ->.
    simpl in Hcc. by destruct (Ascii.eqb_spec x "{").
  - apply (IH eq_refl i). split; [done|eauto].
Qed.

(** What the second comprehension returns, when it returns. *)
Lemma comprehension_stripped l l' :
  FTP.comprehension FTP.strip_sep l = Ok l' -> Forall2 FTP.stripped l l'.
Proof.
  revert l'. induction l as [|raw l IH]; intros l'; simpl.
  - intros [= <-]. constructor.
  - destruct raw as [|c rest]; [done|]. unfold FTP.strip_sep at 1.
    destruct (Ascii.eqb c "/") eqn:Hc;
      destruct (FTP.comprehension FTP.strip_sep l) as [ys|e]; try done;
      intros [= <-]; (constructor; [simpl; by rewrite Hc | by apply IH]).
Qed.

(** A run of [list] on a matched address, up to the result. *)
Lemma list_returns_inv self st rp kw c w1 entries w2 paths st' :
  FTP.remote_path self = Some rp ->
  FTP.kwargs_to_use self = Ok kw ->
  FTP.connect kw (world st) = (inl c, w1) ->
  conn_walk c (FTP.list_dirname (Posixpath.normpath rp)) w1 = (inl entries, w2) ->
  FTP.list_ self st = (Ok paths, st') ->
  FTP.comprehension FTP.strip_sep (FTP.walk_paths entries) = Ok paths.
Proof.
  intros Hrp Hkw Hc Hwalk. unfold FTP.list_. rewrite Hrp, (ftpc_scoped _ _ _ _ Hkw).
  unfold FTP.scoped, bind. rewrite call_run, Hc. simpl.
  rewrite call_run. simpl. rewrite Hwalk. unfold lift.
  destruct (FTP.comprehension FTP.strip_sep (FTP.walk_paths entries)) as [ps|e]; [|done].
  rewrite call_run. destruct (conn_close c _) as [[[]|e] w3]; [|done].
  by intros [= <- _].
Qed.

Lemma list_returns self st rp kw c w1 entries w2 w3 :
  FTP.remote_path self = Some rp ->
  FTP.kwargs_to_use self = Ok kw ->
  FTP.connect kw (world st) = (inl c, w1) ->
  conn_walk c (FTP.list_dirname (Posixpath.normpath rp)) w1 = (inl entries, w2) ->
  Forall (fun e => Forall (fun f => f <> "") (filenames e ++ dirnames e)%list) entries ->
  conn_close c w2 = (inl tt, w3) ->
  exists paths,
    FTP.list_ self st =
      (Ok paths,
       {| world := w3;
          log := log st ++ [ FTP.connect_event kw;
                             EWalk c (FTP.list_dirname (Posixpath.normpath rp));
                             EClose c ] |}) /\
    Forall2 FTP.stripped (FTP.walk_paths entries) paths.
Proof.
  intros Hrp Hkw Hc Hwalk Hnames Hcl.
  destruct (comprehension_strip_sep _ (walk_paths_nonempty _ Hnames)) as (paths & Hp & Hs).
  exists paths. split; [|done].
  unfold FTP.list_. rewrite Hrp, (ftpc_scoped _ _ _ _ Hkw).
  erewrite scoped_body_returns; [|exact Hc|].
  2:{ unfold bind. rewrite call_run. simpl. rewrite Hwalk.
      unfold lift. rewrite Hp. reflexivity. }
  simpl. rewrite Hcl. unfold FTP.logged. simpl. by rewrite <- !List.app_assoc.
Qed.

Lemma prefix_cons a s1 b s2 :
  String.prefix (String a s1) (String b s2)
  = if ascii_dec a b then String.prefix s1 s2 else false.
Proof. reflexivity. Qed.

Lemma prefix_nil s : String.prefix "" s = true.
Proof. by destruct s. Qed.

Lemma prefix_slash_double s :
  String.prefix "/" s = false -> String.prefix "//" s = false.
Proof.
  destruct s as [|c s]; [done|]. rewrite !prefix_cons.
  destruct (ascii_dec "/" c); [|done]. by rewrite prefix_nil.
Qed.

Lemma join_no_double_slash a b :
  String.prefix "//" a = false -> String.prefix "/" b = false ->
  String.prefix "//" (Posixpath.join a b) = false.
Proof.
  intros Ha Hb. unfold Posixpath.join. rewrite Hb.
  destruct a as [|x [|y a']].
  - cbn [String.eqb orb]. rewrite str_app_nil. by apply prefix_slash_double.
  - cbn [String.eqb orb list_ascii_of_string List.last]. unfold Posixpath.sep.
    destruct (Ascii.eqb_spec x "/") as [->|Hx].
    + rewrite str_app_cons, str_app_nil, prefix_cons.
      destruct (ascii_dec "/" "/"); [exact Hb|done].
    + rewrite !str_app_cons, prefix_cons. by destruct (ascii_dec "/" x) as [<-|].
  - rewrite !prefix_cons, prefix_nil in Ha.
    destruct (_ || _); rewrite !str_app_cons, !prefix_cons, prefix_nil; exact Ha.
Qed.

Lemma stripped_no_leading_slash raw p :
  String.prefix "//" raw = false -> FTP.stripped raw p -> String.prefix "/" p = false.
Proof.
  destruct raw as [|c rest]; [done|]. cbn [FTP.stripped].
  destruct (Ascii.eqb_spec c "/") as [->|Hc].
  - rewrite prefix_cons. destruct (ascii_dec "/" "/"); [|done]. by intros H ->.
  - intros _ ->. rewrite prefix_cons. by destruct (ascii_dec "/" c) as [<-|].
Qed.

(** The paths of the first comprehension start with two separators only
    if a directory of the walk does, or a name starts with one. *)
Lemma walk_paths_no_double_slash entries :
  Forall (fun e =>
            String.prefix "//" (dirpath e) = false /\
            Forall (fun f => String.prefix "/" f = false)
                   (filenames e ++ dirnames e)%list) entries ->
  Forall (fun raw => String.prefix "//" raw = false) (FTP.walk_paths entries).
Proof.
  intros Hok. apply Forall_forall. intros raw (e & f & He & Hf & ->)%walk_paths_elem.
  rewrite Forall_forall in Hok. destruct (Hok e He) as [Hd Hn].
  rewrite Forall_forall in Hn. specialize (Hn f Hf).
  destruct (negb _); [by apply join_no_double_slash | by apply prefix_slash_double].
Qed.

Lemma stripped_all_no_leading_slash raws paths :
  Forall (fun raw => String.prefix "//" raw = false) raws ->
  Forall2 FTP.stripped raws paths ->
  Forall (fun p => String.prefix "/" p = false) paths.
Proof.
  intros Hraw Hs. induction Hs as [|raw p l l' Hs _ IH]; [constructor|].
  apply Forall_cons in Hraw as [Hr Hraw]. constructor; [|by apply IH].
  by eapply stripped_no_leading_slash.
Qed.

End MoreListFacts.

(* ===================================================================== *)
(** ** The claim about [list]                                             *)
(* ===================================================================== *)

(** C8, as the claim has it, fails, twice.  The walk does not always
    start from the static prefix of the remote path: [list] normalises
    the path first, and a [..] after a placeholder takes the placeholder
    away: for ["/a/{b}/../c/{d}"] the text before the first placeholder is
    ["/a/"], of directory ["/a"], while the pattern searched is
    ["/a/c/{d}"] and the walk starts from ["/a/c"].  And a returned path
    can start with a separator: [list] strips one only, and [normpath]
    keeps two leading ones, so for ["//data/{sample}.txt"] the walk starts
    from ["//data"] and the paths come back as ["/data/a.txt"] and so
    on. *)
Lemma list_walks_normalised_path_counterexample :
  let self := Toy.handle "ftp.example.org/a/{b}/../c/{d}" in
  let rp := "/a/{b}/../c/{d}" in
  let out := FTP.list_ self (Toy.start Toy.world0) in
  let self2 := Toy.handle "ftp.example.org//data/{sample}.txt" in
  let out2 := FTP.list_ self2 (Toy.start Toy.world_double_sep) in
  (FTP.remote_path self = Some rp /\
   Re.search_wildcard rp = Some 3%nat /\
   Posixpath.dirname (substring 0 3 rp) = "/a" /\
   out.1 = Ok [] /\
   ((@EWalk Toy.toy_env 0%nat "/a/c") ∈ log out.2) /\
   ((@EWalk Toy.toy_env 0%nat "/a") ∉ log out.2)) /\
  (FTP.remote_path self2 = Some "//data/{sample}.txt" /\
   ((@EWalk Toy.toy_env 0%nat "//data") ∈ log out2.2) /\
   out2.1 = Ok ["/data/a.txt"; "/data/b.txt"; "/data/sub"; "/data/sub/c.txt"]).
Proof.
  vm_compute. repeat split.
  - apply list_elem_of_further, list_elem_of_here.
  - intros H. repeat (apply elem_of_cons in H as [H|H]; [discriminate H|]).
    by apply elem_of_nil in H.
  - apply list_elem_of_further, list_elem_of_here.
Qed.

(** C8, amended.  For a remote path whose normalised form has a
    placeholder, the first at index [start]: [list] opens a connection,
    walks once, from the directory of the part of the normalised pattern
    before [start] (["."] when that directory is empty), and closes.  That
    directory is a prefix of the pattern.  When the walk yields [entries],
    all of whose names are non-empty, [list] returns one path for every
    file and directory name of every entry, in the order of the walk: the
    name joined to its directory, with one leading separator stripped if
    it has one.  When moreover no directory of the walk starts with two
    separators and no name starts with one, no returned path starts with
    a separator.  For ["data/{sample}.txt"] the walk starts from
    ["data"]. *)
Theorem list_walks_static_prefix {E : Env}
        (self : FTP.RemoteObject) (st : state) (rp : string) (start : nat)
        (kw : gmap string pyval) (c : Conn) (w1 w2 w3 : World)
        (entries : list walk_entry) :
  let pattern := Posixpath.normpath rp in
  let base := Posixpath.dirname (substring 0 start pattern) in
  let top := if String.eqb base "" then "." else base in
  FTP.remote_path self = Some rp ->
  Re.search_wildcard pattern = Some start ->
  FTP.kwargs_to_use self = Ok kw ->
  FTP.connect kw (world st) = (inl c, w1) ->
  conn_walk c top w1 = (inl entries, w2) ->
  Forall (fun e => Forall (fun f => f <> "") (filenames e ++ dirnames e)%list) entries ->
  conn_close c w2 = (inl tt, w3) ->
  (Re.wildcard_at pattern start /\
   forall j, (j < start)%nat -> ~ Re.wildcard_at pattern j) /\
  String.prefix base pattern = true /\
  FTP.list_dirname (Posixpath.normpath "data/{sample}.txt") = "data" /\
  (forall raw,
     raw ∈ FTP.walk_paths entries <->
     exists e f,
       e ∈ entries /\ f ∈ (filenames e ++ dirnames e)%list /\
       raw = (if negb (String.eqb (dirpath e) ".")
              then Posixpath.join (dirpath e) f else f)) /\
  exists paths,
    FTP.list_ self st =
      (Ok paths, {| world := w3;
                    log := log st ++ [ FTP.connect_event kw; EWalk c top; EClose c ] |}) /\
    Forall2 FTP.stripped (FTP.walk_paths entries) paths /\
    (Forall (fun e =>
               String.prefix "//" (dirpath e) = false /\
               Forall (fun f => String.prefix "/" f = false)
                      (filenames e ++ dirnames e)%list) entries ->
     Forall (fun p => String.prefix "/" p = false) paths).
Proof.
  intros pattern base top Hrp Hstart Hkw Hc Hwalk Hnames Hcl.
  split; [by apply search_wildcard_first|].
  split.
  { eapply prefix_trans; [apply dirname_prefix | apply prefix_substring]. }
  split; [reflexivity|].
  split; [apply walk_paths_elem|].
  assert (Htop : FTP.list_dirname (Posixpath.normpath rp) = top).
  { unfold FTP.list_dirname. fold pattern. by rewrite Hstart. }
  rewrite <- Htop in Hwalk |- *.
  destruct (list_returns self st rp kw c w1 entries w2 w3 Hrp Hkw Hc Hwalk Hnames Hcl)
    as (paths & Hl & Hs).
  exists paths. split; [done|]. split; [done|].
  intros Hok. eapply stripped_all_no_leading_slash; [|exact Hs].
  by apply walk_paths_no_double_slash.
Qed.

Lemma list_walks_static_prefix_witness :
  let self := Toy.handle "ftp.example.org/data/{sample}.txt" in
  exists paths,
    (FTP.list_ self (Toy.start Toy.world0)).1 = Ok paths /\
    Forall2 FTP.stripped
      ["/data/a.txt"; "/data/b.txt"; "/data/sub"; "/data/sub/c.txt"] paths /\
    Forall (fun p => String.prefix "/" p = false) paths.
Proof.
  intros self.
  pose (kw := FTP.update_items
                (FTP.update_items (FTP.defaults self 21)
                                  (FTP.provider_kwargs (FTP.provider self)))
                (FTP.kwargs self)).
  pose (w1 := (Toy.toy_FTPHost (VStr "ftp.example.org") VNone VNone
                 (FTP.session_of kw) Toy.world0).2).
  destruct (@list_walks_static_prefix Toy.toy_env self (Toy.start Toy.world0)
              "/data/{sample}.txt" 6 kw 0%nat w1 w1 (Toy.toy_close 0 w1).2
              [ {| dirpath := "/data"; dirnames := ["sub"];
                   filenames := ["a.txt"; "b.txt"] |};
                {| dirpath := "/data/sub"; dirnames := []; filenames := ["c.txt"] |} ])
    as (_ & _ & _ & _ & paths & Hl & Hs & Hno).
  - reflexivity.
  - reflexivity.
  - reflexivity.
  - vm_compute. reflexivity.
  - reflexivity.
  - repeat constructor; discriminate.
  - reflexivity.
  - exists paths. split; [by rewrite Hl|]. split; [exact Hs|].
    apply Hno. repeat constructor.
Defined.

(* ===================================================================== *)
(** ** More of [list]                                                     *)
(* ===================================================================== *)

(** X12.  For a remote path whose normalised form has no placeholder,
    [list] walks from the directory that holds the path (["."] when the
    path has no directory part), not from the path itself: what it returns
    are the files and directories found from there, each with one leading
    separator stripped. *)
Theorem list_without_placeholder_walks_parent {E : Env}
        (self : FTP.RemoteObject) (st : state) (rp : string)
        (kw : gmap string pyval) (c : Conn) (w1 w2 w3 : World)
        (entries : list walk_entry) :
  let pattern := Posixpath.normpath rp in
  let parent := Posixpath.dirname pattern in
  let top := if String.eqb parent "" then "." else parent in
  FTP.remote_path self = Some rp ->
  Re.search_wildcard pattern = None ->
  FTP.kwargs_to_use self = Ok kw ->
  FTP.connect kw (world st) = (inl c, w1) ->
  conn_walk c top w1 = (inl entries, w2) ->
  Forall (fun e => Forall (fun f => f <> "") (filenames e ++ dirnames e)%list) entries ->
  conn_close c w2 = (inl tt, w3) ->
  (forall i, ~ Re.wildcard_at pattern i) /\
  String.prefix parent pattern = true /\
  exists paths,
    FTP.list_ self st =
      (Ok paths, {| world := w3;
                    log := log st ++ [ FTP.connect_event kw; EWalk c top; EClose c ] |}) /\
    Forall2 FTP.stripped (FTP.walk_paths entries) paths.
Proof.
  intros pattern parent top Hrp Hnone Hkw Hc Hwalk Hnames Hcl.
  split; [by apply search_wildcard_none|].
  split; [apply dirname_prefix|].
  assert (Htop : FTP.list_dirname (Posixpath.normpath rp) = top).
  { unfold FTP.list_dirname. fold pattern. by rewrite Hnone. }
  rewrite <- Htop in Hwalk |- *.
  by apply (list_returns self st rp kw c w1 entries w2 w3).
Qed.

Lemma list_without_placeholder_walks_parent_witness :
  let self := Toy.handle "ftp.example.org/data/a.txt" in
  exists paths,
    (FTP.list_ self (Toy.start Toy.world0)).1 = Ok paths /\
    map kind_of (log (FTP.list_ self (Toy.start Toy.world0)).2)
    = [KConnect; KWalk; KClose] /\
    Forall2 FTP.stripped
      ["/data/a.txt"; "/data/b.txt"; "/data/sub"; "/data/sub/c.txt"] paths.
Proof.
  intros self.
  pose (kw := FTP.update_items
                (FTP.update_items (FTP.defaults self 21)
                                  (FTP.provider_kwargs (FTP.provider self)))
                (FTP.kwargs self)).
  pose (w1 := (@FTP.connect Toy.toy_env kw Toy.world0).2).
  destruct (@list_without_placeholder_walks_parent Toy.toy_env self
              (Toy.start Toy.world0) "/data/a.txt" kw 0%nat w1 w1 (Toy.toy_close 0 w1).2
              [ {| dirpath := "/data"; dirnames := ["sub"];
                   filenames := ["a.txt"; "b.txt"] |};
                {| dirpath := "/data/sub"; dirnames := []; filenames := ["c.txt"] |} ])
    as (_ & _ & paths & Hl & Hs).
  - reflexivity.
  - reflexivity.
  - reflexivity.
  - vm_compute. reflexivity.
  - reflexivity.
  - repeat constructor; discriminate.
  - reflexivity.
  - exists paths. rewrite Hl. split; [reflexivity|]. split; [reflexivity|exact Hs].
Defined.

(** X13.  [list] strips one separator only.  When no directory the walk
    yields starts with two separators and no name starts with one, no path
    [list] returns starts with a separator. *)
Theorem list_paths_have_no_leading_separator {E : Env}
        (self : FTP.RemoteObject) (st st' : state) (rp : string)
        (kw : gmap string pyval) (c : Conn) (w1 w2 : World)
        (entries : list walk_entry) (paths : list string) :
  FTP.remote_path self = Some rp ->
  FTP.kwargs_to_use self = Ok kw ->
  FTP.connect kw (world st) = (inl c, w1) ->
  conn_walk c (FTP.list_dirname (Posixpath.normpath rp)) w1 = (inl entries, w2) ->
  Forall (fun e =>
            String.prefix "//" (dirpath e) = false /\
            Forall (fun f => String.prefix "/" f = false)
                   (filenames e ++ dirnames e)%list) entries ->
  FTP.list_ self st = (Ok paths, st') ->
  Forall (fun p => String.prefix "/" p = false) paths.
Proof.
  intros Hrp Hkw Hc Hwalk Hok Hl.
  pose proof (list_returns_inv _ _ _ _ _ _ _ _ _ _ Hrp Hkw Hc Hwalk Hl) as Hcomp.
  apply comprehension_stripped in Hcomp.
  assert (Hraw : Forall (fun raw => String.prefix "//" raw = false)
                        (FTP.walk_paths entries)).
  { apply Forall_forall. intros raw (e & f & He & Hf & ->)%walk_paths_elem.
    rewrite Forall_forall in Hok. destruct (Hok e He) as [Hd Hn].
    rewrite Forall_forall in Hn. specialize (Hn f Hf).
    destruct (negb _); [by apply join_no_double_slash | by apply prefix_slash_double]. }
  clear -Hcomp Hraw. induction Hcomp as [|raw p l l' Hs _ IH]; [constructor|].
  apply Forall_cons in Hraw as [Hr Hraw]. constructor; [|by apply IH].
  by eapply stripped_no_leading_slash.
Qed.

Lemma list_paths_have_no_leading_separator_witness :
  let self := Toy.handle "ftp.example.org/data/{sample}.txt" in
  Forall (fun p => String.prefix "/" p = false)
         ["data/a.txt"; "data/b.txt"; "data/sub"; "data/sub/c.txt"].
Proof.
  intros self.
  pose (kw := FTP.update_items
                (FTP.update_items (FTP.defaults self 21)
                                  (FTP.provider_kwargs (FTP.provider self)))
                (FTP.kwargs self)).
  pose (w1 := (@FTP.connect Toy.toy_env kw Toy.world0).2).
  apply (@list_paths_have_no_leading_separator Toy.toy_env self
           (Toy.start Toy.world0) (FTP.list_ self (Toy.start Toy.world0)).2
           "/data/{sample}.txt" kw 0%nat w1 w1
           [ {| dirpath := "/data"; dirnames := ["sub"];
                filenames := ["a.txt"; "b.txt"] |};
             {| dirpath := "/data/sub"; dirnames := []; filenames := ["c.txt"] |} ]).
  - reflexivity.
  - reflexivity.
  - vm_compute. reflexivity.
  - reflexivity.
  - repeat constructor.
  - vm_compute. reflexivity.
Defined.

(** X14.  The positional arguments are never used: [ftpc] picks
    [args_to_use] and drops it, so a handle with other positional
    arguments, its own or its provider's, runs every operation the same. *)
Theorem positional_arguments_are_ignored {E : Env}
        (self : FTP.RemoteObject) (a pa : list pyval) (st : state) :
  let self' := FTP.with_args self a pa in
  (forall A (body : Conn -> M A), FTP.ftpc self' body st = FTP.ftpc self body st) /\
  FTP.exists_ self' st = FTP.exists_ self st /\
  FTP.mtime self' st = FTP.mtime self st /\
  FTP.size self' st = FTP.size self st /\
  (forall mk, FTP.download self' mk st = FTP.download self mk st) /\
  FTP.upload self' st = FTP.upload self st /\
  FTP.list_ self' st = FTP.list_ self st.
Proof. repeat split. Qed.

(** X15.  With no keyword arguments, its own or its provider's, a handle
    whose address names no port, or one of no more digits than [int]
    converts, connects to the host of its address, without user name or
    password, on the port of its address, over [FTP_TLS] exactly when its
    [encrypt_data_channel] attribute is true.  On a longer port there are
    no keyword arguments to connect with: [int] raises [ValueError]. *)
Theorem connection_without_kwargs {E : Env}
        (self : FTP.RemoteObject) (m : Re.address_match) :
  FTP._matched_address self = Some m ->
  FTP.kwargs self = ∅ ->
  FTP.provider_kwargs (FTP.provider self) = ∅ ->
  if port_in_limit m then
    exists kw p,
      FTP.kwargs_to_use self = Ok kw /\
      FTP.port self = Ok p /\
      FTP.connect_event kw =
        EConnect (VStr (Re.group_host m)) VNone VNone
          {| base_class := FTP.ftp_base_class (FTP.encrypt_data_channel self);
             sf_port := VInt p;
             sf_encrypt_data_channel := FTP.encrypt_data_channel self;
             debug_level := VNone |}
  else FTP.kwargs_to_use self = Raise ValueError.
Proof.
  intros Hm Hk Hpk. destruct (port_in_limit m) eqn:Hlim.
  2:{ by eapply kwargs_to_use_too_long. }
  destruct (kwargs_to_use_wellformed _ _ Hm Hlim) as [kw Hkw].
  destruct (kwargs_to_use_ok _ _ Hkw) as (p & Hp & Heq).
  exists kw, p. split; [done|]. split; [done|].
  assert (Hl : forall k, kw !! k = FTP.defaults self p !! k).
  { intros k. subst kw. rewrite !update_items_lookup, Hk, Hpk.
    by rewrite !lookup_empty. }
  unfold FTP.connect_event, FTP.session_of, FTP.kw_get. rewrite !Hl.
  unfold FTP.defaults, FTP.host. rewrite Hm. reflexivity.
Qed.

Lemma connection_without_kwargs_witness :
  let self := Toy.handle "ftp.example.org:2121/data/a.txt" in
  exists kw p,
    FTP.kwargs_to_use self = Ok kw /\
    FTP.port self = Ok p /\
    @FTP.connect_event Toy.toy_env kw =
      EConnect (VStr "ftp.example.org") VNone VNone
        {| base_class := FTP; sf_port := VInt p;
           sf_encrypt_data_channel := VBool false; debug_level := VNone |}.
Proof.
  intros self.
  exact (@connection_without_kwargs Toy.toy_env self
           {| Re.group_host := "ftp.example.org"; Re.group_port := Some "2121";
              Re.group_path_remainder := "/data/a.txt" |}
           eq_refl eq_refl eq_refl).
Defined.

(** X16.  [download] of a file that is there, into a directory that is
    there too: [makedirs] is not called, whatever [make_dest_dirs] is, so
    a directory left by an earlier download does not make this one fail;
    the file is fetched over the first connection after the clocks are
    synchronised. *)
Theorem download_into_existing_directory {E : Env}
        (self : FTP.RemoteObject) (make_dest_dirs : bool) (st : state)
        (kw : gmap string pyval) (c0 c1 : Conn) (w1 w2 w3 w4 w5 w6 w7 : World) :
  FTP.kwargs_to_use self = Ok kw ->
  FTP.connect kw (world st) = (inl c0, w1) ->
  FTP.connect kw w1 = (inl c1, w2) ->
  path_exists c1 (FTP.remote_path self) w2 = (inl true, w3) ->
  conn_close c1 w3 = (inl tt, w4) ->
  os_path_exists (Posixpath.dirname (FTP.local_path self)) w4 = true ->
  synchronize_times c0 w4 = (inl tt, w5) ->
  conn_download c0 (FTP.remote_path self) (FTP.local_path self) w5 = (inl tt, w6) ->
  conn_close c0 w6 = (inl tt, w7) ->
  FTP.download self make_dest_dirs st =
  (Ok tt,
   {| world := w7;
      log := log st ++
             [ FTP.connect_event kw; FTP.connect_event kw;
               EExists c1 (FTP.remote_path self); EClose c1;
               ESync c0;
               EDownload c0 (FTP.remote_path self) (FTP.local_path self);
               EClose c0 ] |}).
Proof.
  intros Hkw Hc0 Hc1 Hq Hcl1 Hthere Hs Hd Hcl0.
  pose proof (exists_returns self kw (FTP.logged st (FTP.connect_event kw) w1)
                c1 w2 true w3 w4 Hkw Hc1 Hq Hcl1) as Hex.
  rewrite (download_keeps_existing_directory self make_dest_dirs kw st c0 w1 _ w5 w6 w7
             Hkw Hc0 Hex Hthere Hs Hd Hcl0).
  simpl. by rewrite <- !List.app_assoc.
Qed.

Lemma download_into_existing_directory_witness :
  let file := "ftp.example.org/data/a.txt" in
  let self := Toy.handle file in
  let out := FTP.download self true (Toy.start (Toy.with_local_copy file 2)) in
  out.1 = Ok tt /\
  map kind_of (log out.2)
  = [KConnect; KConnect; KExists; KClose; KSync; KDownload; KClose] /\
  Toy.assoc file (Toy.local_files (world out.2)) = Some "alpha".
Proof.
  intros file self out.
  pose (kw := FTP.update_items
                (FTP.update_items (FTP.defaults self 21)
                                  (FTP.provider_kwargs (FTP.provider self)))
                (FTP.kwargs self)).
  pose (w0 := Toy.with_local_copy file 2).
  pose (w1 := (@FTP.connect Toy.toy_env kw w0).2).
  pose (w2 := (@FTP.connect Toy.toy_env kw w1).2).
  pose (w4 := (Toy.toy_close 1 w2).2).
  pose (w6 := (Toy.toy_download 0 (Some "/data/a.txt") file w4).2).
  pose (w7 := (Toy.toy_close 0 w6).2).
  unfold out.
  rewrite (@download_into_existing_directory Toy.toy_env self true
             (Toy.start (Toy.with_local_copy file 2)) kw
             0%nat 1%nat w1 w2 w2 w4 w4 w6 w7)
    by (vm_compute; reflexivity).
  repeat split.
Defined.
